(** * teensy-midi-clock: a shallow embedding of the sketch and its properties

    The sketch [teensy-midi-clock.ino] turns a tempo received over USB MIDI
    into a stream of MIDI clock pulses (24 per quarter note), hands timing
    over to the host on Start/Stop, and blinks the built-in LED on every beat.

    The development follows the sketch top to bottom: single-precision
    arithmetic and the fixed-width integers, the [#define]s, the static
    variables gathered in one record, the collaborators the sketch calls
    (interval timer, LED pin, USB MIDI), then every function of the sketch
    under its own name, and last the properties. *)

From Stdlib Require Import ZArith List Bool Lia.
From Stdlib Require Import Floats.SpecFloat.
Import ListNotations.
Open Scope Z_scope.

(* ================================================================== *)
(** * Single-precision arithmetic *)
(* ================================================================== *)

(** Every floating-point literal of the sketch carries the [f] suffix and
    every operand is a [float], so the expression of
    [UpdateIntervalFromBPM] is evaluated in IEEE-754 binary32, one
    round-to-nearest-even after each operation.  [SpecFloat] gives that
    arithmetic for any precision; binary32 has a 24-bit significand and
    exponent bound 128. *)
Module Float32.

Definition float := spec_float.

Definition prec : Z := 24.
Definition emax : Z := 128.

Definition mul : float -> float -> float := SFmul prec emax.
Definition div : float -> float -> float := SFdiv prec emax.
Definition add : float -> float -> float := SFadd prec emax.

(** An integer literal or an integer converted by [static_cast<float>];
    rounded when it does not fit (never the case for the values of the
    sketch, all below 2^24). *)
Definition of_Z (n : Z) : float := binary_normalize prec emax n 0 false.

(** Integer part of a finite float, rounding toward zero. *)
Definition trunc_finite (s : bool) (m : positive) (e : Z) : Z :=
  let mag := match e with
             | Z0 => Zpos m
             | Zpos _ => Z.shiftl (Zpos m) e
             | Zneg p => Z.shiftr (Zpos m) (Zpos p)
             end in
  if s then - mag else mag.

(** [static_cast<uint32_t>(x)]: the fractional part is discarded.  C++
    leaves the conversion undefined when the truncated value is not
    representable; the ARM run-time helper saturates there, and that is
    what is written for those cases. *)
Definition to_uint32 (x : float) : Z :=
  match x with
  | S754_zero _ => 0
  | S754_nan => 0
  | S754_infinity s => if s then 0 else 2 ^ 32 - 1
  | S754_finite s m e => Z.max 0 (Z.min (2 ^ 32 - 1) (trunc_finite s m e))
  end.

(** The conversion is in its defined range: finite (or zero) with the
    truncated value in [0, 2^32). *)
Definition uint32_defined (x : float) : bool :=
  match x with
  | S754_zero _ => true
  | S754_finite s m e =>
      (0 <=? trunc_finite s m e) && (trunc_finite s m e <? 2 ^ 32)
  | _ => false
  end.

End Float32.

(** Fixed-width unsigned storage: what assigning to a [uint8_t] or a
    [uint16_t] keeps of a value. *)
Definition to_uint8 (n : Z) : Z := n mod 256.
Definition to_uint16 (n : Z) : Z := n mod 65536.

(* ================================================================== *)
(** * Defines and constants *)
(* ================================================================== *)

Definition MIDI_CLOCK_PPN : Z := 24.
Definition MIN_PER_SEC : Float32.float :=
  Float32.div (Float32.of_Z 1) (Float32.of_Z 60).
Definition SEC_PER_US : Float32.float :=
  Float32.div (Float32.of_Z 1) (Float32.of_Z 1000000).
Definition BPM_OFFSET : Float32.float := Float32.of_Z 40.
Definition SPP_BEATS_PER_QUARTER : Z := 4.
Definition SPP_BEATS_PER_MEASURE : Z := 16.
Definition SPP_PULSES_PER_BEAT : Z := MIDI_CLOCK_PPN / SPP_BEATS_PER_QUARTER.
Definition LED_BEAT_DIV_RATIO : Z := 2.

(** [//#define SPP_SYNC // not working yet]: the option is off in the
    sketch as it stands.  Functions whose body depends on it take the
    option as their first argument. *)
Definition SPP_SYNC : bool := false.

Definition CC_Tempo : Z := 3.
Definition PC_Tempo : Z := 15.

(** Modelled from the spec: the real-time codes [usbMIDI.Clock],
    [usbMIDI.Start], [usbMIDI.Continue] and [usbMIDI.Stop] are enumerators
    of the USB MIDI library, which is not part of the sketch; they are the
    MIDI real-time status bytes the spec's Start, Stop and Clock messages
    travel as. *)
Definition usbMIDI_Clock : Z := 248.
Definition usbMIDI_Start : Z := 250.
Definition usbMIDI_Continue : Z := 251.
Definition usbMIDI_Stop : Z := 252.
Definition usbMIDI_ActiveSensing : Z := 254.

(* ================================================================== *)
(** * Tempo mapper *)
(* ================================================================== *)

(** The operand of the conversion in [UpdateIntervalFromBPM]:
    [1.0f / (static_cast<float>(MIDI_CLOCK_PPN) * BPM * MIN_PER_SEC * SEC_PER_US)].
    The product associates to the left, as C++ parses it. *)
Definition pulse_period (BPM : Float32.float) : Float32.float :=
  Float32.div (Float32.of_Z 1)
    (Float32.mul
       (Float32.mul
          (Float32.mul (Float32.of_Z MIDI_CLOCK_PPN) BPM)
          MIN_PER_SEC)
       SEC_PER_US).

(** [uint32_t UpdateIntervalFromBPM(float BPM)]. *)
Definition UpdateIntervalFromBPM (BPM : Float32.float) : Z :=
  Float32.to_uint32 (pulse_period BPM).

(** The argument both handlers pass:
    [static_cast<float>(value) + BPM_OFFSET]. *)
Definition BPM_of_value (value : Z) : Float32.float :=
  Float32.add (Float32.of_Z value) BPM_OFFSET.

(** The local [clockIntervalUs] of both handlers. *)
Definition clockIntervalUs (value : Z) : Z :=
  UpdateIntervalFromBPM (BPM_of_value value).

(** The pulse period in exact integer arithmetic, truncated:
    60,000,000 / (BPM * 24) with BPM = v + 40. *)
Definition exact_interval (v : Z) : Z := 60000000 / ((v + 40) * 24).

(** The integers [lo, lo + n). *)
Definition Zrange (lo : Z) (n : nat) : list Z :=
  map (fun k => lo + Z.of_nat k) (seq 0 n).

(* ================================================================== *)
(** * Static variables and collaborators *)
(* ================================================================== *)

(** Modelled from the spec: the hardware timer service [IntervalTimer]
    belongs to the board's core library.  Its interface is
    [begin(callback, intervalMicroseconds)], [update(intervalMicroseconds)]
    and [end()]; what the sketch can observe of it is whether the periodic
    interrupt is scheduled and at which period. *)
Record IntervalTimer := mkTimer {
  running : bool;
  period : Z
}.

(** What the sketch hands to the USB MIDI transport. *)
Inductive TxEvent :=
| sendRealTime (code : Z)
| send_now.

(** What [usbMIDI.read()] can take from the transport.  [setup] registers
    a handler for control change, real-time, program change and, under
    [SPP_SYNC], song position; every other message has none. *)
Inductive Message :=
| ControlChange (channel control value : Z)
| ProgramChange (channel value : Z)
| RealTime (realtimebyte : Z)
| SongPosition (beats : Z)
| Unhandled.

(** The static variables of the sketch, the level of the LED pin and the
    two directions of the USB MIDI transport. *)
Record State := mkState {
  midiClockTimer : IntervalTimer;
  pulsePending : bool;
  extClockPending : bool;
  pulseCounter : Z;
  SPP : Z;
  timerEn : bool;
  LED_BUILTIN : bool;
  usbTx : list TxEvent;
  usbRx : list Message
}.

(** The initial values of the static variables; the pin is low and the
    transport idle. *)
Definition initial : State :=
  {| midiClockTimer := mkTimer false 0;
     pulsePending := false;
     extClockPending := false;
     pulseCounter := 0;
     SPP := 0;
     timerEn := false;
     LED_BUILTIN := false;
     usbTx := [];
     usbRx := [] |}.

(** Statements are state transformers. *)
Definition Cmd := State -> State.

Definition skip : Cmd := fun s => s.
Definition seq_cmd (c1 c2 : Cmd) : Cmd := fun s => c2 (c1 s).
Definition if_cmd (b : State -> bool) (c1 c2 : Cmd) : Cmd :=
  fun s => if b s then c1 s else c2 s.

Declare Scope cmd_scope.
Delimit Scope cmd_scope with cmd.
Bind Scope cmd_scope with Cmd.
Notation "c1 ;; c2" := (seq_cmd c1 c2)
  (at level 61, right associativity) : cmd_scope.
Notation "'If' b 'Then' c1 'Else' c2" := (if_cmd b c1 c2)
  (at level 60, b at level 9, c1 at level 9, c2 at level 9) : cmd_scope.
Notation "'If' b 'Then' c1" := (if_cmd b c1 skip)
  (at level 60, b at level 9, c1 at level 9) : cmd_scope.

(** Assignments to the static variables. *)
Definition set_midiClockTimer (t : IntervalTimer) : Cmd := fun s =>
  mkState t (pulsePending s) (extClockPending s) (pulseCounter s) (SPP s)
    (timerEn s) (LED_BUILTIN s) (usbTx s) (usbRx s).
Definition set_pulsePending (b : bool) : Cmd := fun s =>
  mkState (midiClockTimer s) b (extClockPending s) (pulseCounter s) (SPP s)
    (timerEn s) (LED_BUILTIN s) (usbTx s) (usbRx s).
Definition set_extClockPending (b : bool) : Cmd := fun s =>
  mkState (midiClockTimer s) (pulsePending s) b (pulseCounter s) (SPP s)
    (timerEn s) (LED_BUILTIN s) (usbTx s) (usbRx s).
Definition set_pulseCounter (n : Z) : Cmd := fun s =>
  mkState (midiClockTimer s) (pulsePending s) (extClockPending s)
    (to_uint8 n) (SPP s) (timerEn s) (LED_BUILTIN s) (usbTx s) (usbRx s).
Definition set_SPP (n : Z) : Cmd := fun s =>
  mkState (midiClockTimer s) (pulsePending s) (extClockPending s)
    (pulseCounter s) (to_uint16 n) (timerEn s) (LED_BUILTIN s) (usbTx s)
    (usbRx s).
Definition set_timerEn (b : bool) : Cmd := fun s =>
  mkState (midiClockTimer s) (pulsePending s) (extClockPending s)
    (pulseCounter s) (SPP s) b (LED_BUILTIN s) (usbTx s) (usbRx s).
Definition set_usbRx (q : list Message) : Cmd := fun s =>
  mkState (midiClockTimer s) (pulsePending s) (extClockPending s)
    (pulseCounter s) (SPP s) (timerEn s) (LED_BUILTIN s) (usbTx s) q.

(** [digitalWrite(LED_BUILTIN, level)]. *)
Definition HIGH : bool := true.
Definition LOW : bool := false.
Definition digitalWrite_LED (level : bool) : Cmd := fun s =>
  mkState (midiClockTimer s) (pulsePending s) (extClockPending s)
    (pulseCounter s) (SPP s) (timerEn s) level (usbTx s) (usbRx s).

(** [usbMIDI.sendRealTime(code)] and [usbMIDI.send_now()]. *)
Definition usbMIDI_emit (e : TxEvent) : Cmd := fun s =>
  mkState (midiClockTimer s) (pulsePending s) (extClockPending s)
    (pulseCounter s) (SPP s) (timerEn s) (LED_BUILTIN s) (usbTx s ++ [e])
    (usbRx s).
Definition usbMIDI_sendRealTime (code : Z) : Cmd :=
  usbMIDI_emit (sendRealTime code).
Definition usbMIDI_send_now : Cmd := usbMIDI_emit send_now.

(** [midiClockTimer.begin(TimerISR, us)], [.update(us)] and [.end()].
    [update] changes the period of a scheduled interrupt and does nothing
    to an idle timer. *)
Definition midiClockTimer_begin (us : Z) : Cmd := fun s =>
  set_midiClockTimer (mkTimer true us) s.
Definition midiClockTimer_update (us : Z) : Cmd := fun s =>
  set_midiClockTimer
    (mkTimer (running (midiClockTimer s))
       (if running (midiClockTimer s) then us else period (midiClockTimer s)))
    s.
Definition midiClockTimer_end : Cmd := fun s =>
  set_midiClockTimer (mkTimer false (period (midiClockTimer s))) s.

(* ================================================================== *)
(** * The sketch *)
(* ================================================================== *)

Open Scope cmd_scope.

(** [void TimerISR(void)]. *)
Definition TimerISR : Cmd := set_pulsePending true.

(** [void CC_Handler(byte channel, byte control, byte value)]. *)
Definition CC_Handler (channel control value : Z) : Cmd :=
  if control =? CC_Tempo then
    let us := clockIntervalUs value in
    If timerEn
    Then (midiClockTimer_update us)
    Else (midiClockTimer_begin us ;; set_timerEn true)
  else skip.

(** [void PC_Handler(byte channel, byte value)]. *)
Definition PC_Handler (channel value : Z) : Cmd :=
  if channel =? PC_Tempo then
    let us := clockIntervalUs value in
    If timerEn
    Then (midiClockTimer_update us)
    Else (midiClockTimer_begin us ;; set_timerEn true)
  else skip.

(** [void RealTimeSystemHandler(byte realtimebyte)]: a [switch] with three
    cases and no default. *)
Definition RealTimeSystemHandler (realtimebyte : Z) : Cmd :=
  if realtimebyte =? usbMIDI_Start then
    set_pulseCounter 0 ;;
    If timerEn Then (midiClockTimer_end ;; set_timerEn false)
  else if realtimebyte =? usbMIDI_Stop then
    If timerEn Then (midiClockTimer_end ;; set_timerEn false)
  else if realtimebyte =? usbMIDI_Clock then
    set_extClockPending true
  else skip.

(** [void SongPositionHandler(uint16_t beats)], present under [SPP_SYNC].
    The C condition [SPP % SPP_BEATS_PER_MEASURE] is true when the
    remainder is not zero. *)
Definition SongPositionHandler (beats : Z) : Cmd :=
  set_SPP beats ;;
  If (fun s => negb (SPP s mod SPP_BEATS_PER_MEASURE =? 0))
  Then (set_pulseCounter 0).

(** [void SongPositionIncrement(void)], present under [SPP_SYNC]. *)
Definition SongPositionIncrement : Cmd :=
  (fun s => set_SPP (SPP s + 1) s) ;;
  (fun s => SongPositionHandler (SPP s) s).

(** [void ClockPulseHandler(void)].  The second block is compiled only
    under [SPP_SYNC]. *)
Definition ClockPulseHandler (spp_sync : bool) : Cmd :=
  (If (fun s => pulseCounter s =? 0)
   Then (digitalWrite_LED HIGH)
   Else (If (fun s => pulseCounter s =? MIDI_CLOCK_PPN / LED_BEAT_DIV_RATIO)
         Then (digitalWrite_LED LOW))) ;;
  (fun s => set_pulseCounter ((pulseCounter s + 1) mod MIDI_CLOCK_PPN) s) ;;
  (if spp_sync then
     If (fun s => pulseCounter s mod SPP_PULSES_PER_BEAT =? 0)
     Then SongPositionIncrement
   else skip).

(** The handlers [setup] registers, applied to one received message. *)
Definition dispatch (spp_sync : bool) (m : Message) : Cmd :=
  match m with
  | ControlChange channel control value => CC_Handler channel control value
  | ProgramChange channel value => PC_Handler channel value
  | RealTime realtimebyte => RealTimeSystemHandler realtimebyte
  | SongPosition beats =>
      if spp_sync then SongPositionHandler beats else skip
  | Unhandled => skip
  end.

(** [usbMIDI.read()]: takes at most one message from the transport and
    calls its handler. *)
Definition usbMIDI_read (spp_sync : bool) : Cmd := fun s =>
  match usbRx s with
  | [] => s
  | m :: rest => dispatch spp_sync m (set_usbRx rest s)
  end.

(** [void loop()]. *)
Definition loop (spp_sync : bool) : Cmd :=
  If pulsePending
  Then (usbMIDI_sendRealTime usbMIDI_Clock ;;
        usbMIDI_send_now ;;
        set_pulsePending false ;;
        ClockPulseHandler spp_sync)
  Else (If extClockPending
        Then (set_extClockPending false ;;
              ClockPulseHandler spp_sync)
        Else (usbMIDI_read spp_sync)).

Close Scope cmd_scope.

(* ================================================================== *)
(** * The running system *)
(* ================================================================== *)

(** What can happen between two observations of the state: the timer
    interrupt fires (only a scheduled timer does), [loop] runs once, or
    the host delivers a message to the transport. *)
Inductive Event :=
| Tick
| Loop
| Host (m : Message).

Definition exec (spp_sync : bool) (ev : Event) : Cmd := fun s =>
  match ev with
  | Tick => if running (midiClockTimer s) then TimerISR s else s
  | Loop => loop spp_sync s
  | Host m => set_usbRx (usbRx s ++ [m]) s
  end.

Definition run (spp_sync : bool) (evs : list Event) (s : State) : State :=
  fold_left (fun st ev => exec spp_sync ev st) evs s.

(** [n] pulses consumed one after the other. *)
Definition pulses (n : nat) : Cmd := fun s =>
  Nat.iter n (ClockPulseHandler SPP_SYNC) s.

(** Witness states used below: a dormant state in the middle of a beat,
    and the same state with the internal timer armed at 60 BPM. *)
Definition mid_beat : State := set_pulseCounter 5 initial.
Definition armed : State := CC_Handler 1 CC_Tempo 20 mid_beat.

(* ================================================================== *)
(** * Vocabulary of the statements *)
(* ================================================================== *)

(** The check behind the interval table: the conversion is in its defined
    range, the interval is positive, and it is the exact quotient except
    at 50 and 100 BPM, where single precision lands just below the
    integer and truncation loses one microsecond. *)
Definition interval_ok (v : Z) : bool :=
  Float32.uint32_defined (pulse_period (BPM_of_value v))
  && (0 <? clockIntervalUs v)
  && (clockIntervalUs v =?
        if (v =? 10) || (v =? 60) then exact_interval v - 1
        else exact_interval v).

Definition interval_drops (v : Z) : bool :=
  clockIntervalUs (v + 1) <? clockIntervalUs v.

(** What a transport handler never touches: the pending-pulse flag set by
    the interrupt, the song position, the LED and both directions of the
    USB transport. *)
Definition same_periphery (s s' : State) : Prop :=
  pulsePending s' = pulsePending s /\
  SPP s' = SPP s /\
  LED_BUILTIN s' = LED_BUILTIN s /\
  usbTx s' = usbTx s /\
  usbRx s' = usbRx s.

(** The flag [timerEn] mirrors the hardware timer. *)
Definition coherent (s : State) : Prop :=
  running (midiClockTimer s) = timerEn s.

(** What arming or reprogramming does, whichever handler asked: the flag
    ends up set, a timer coherent with the flag ends up scheduled at the
    new period, and nothing else moves. *)
Definition arms_timer (us : Z) (s s' : State) : Prop :=
  timerEn s' = true /\
  (coherent s ->
     running (midiClockTimer s') = true /\ period (midiClockTimer s') = us) /\
  pulseCounter s' = pulseCounter s /\
  extClockPending s' = extClockPending s /\
  same_periphery s s'.

(** The range the pulse counter lives in. *)
Definition counter_in_range (s : State) : Prop := 0 <= pulseCounter s < 24.

(** One outbound clock as the transport sees it: the real-time message
    and the flush that follows it. *)
Definition clock_frame : list TxEvent :=
  [sendRealTime usbMIDI_Clock; send_now].

Fixpoint clock_frames (n : nat) : list TxEvent :=
  match n with
  | O => []
  | S k => clock_frame ++ clock_frames k
  end.

(** The timer interrupts among the events of a run. *)
Definition is_Tick (ev : Event) : bool :=
  match ev with
  | Tick => true
  | _ => false
  end.

Definition ticks (evs : list Event) : nat := length (filter is_Tick evs).

(** The messages that pass the guard of [CC_Handler] or [PC_Handler]. *)
Definition arming (m : Message) : bool :=
  match m with
  | ControlChange _ control _ => control =? CC_Tempo
  | ProgramChange channel _ => channel =? PC_Tempo
  | _ => false
  end.

(** An event that delivers no tempo message. *)
Definition quiet_event (ev : Event) : bool :=
  match ev with
  | Host m => negb (arming m)
  | _ => true
  end.

(** Nothing can make the sketch send: the timer is idle, no internal
    pulse is pending and no tempo message waits in the transport. *)
Definition dormant (s : State) : Prop :=
  running (midiClockTimer s) = false /\
  timerEn s = false /\
  pulsePending s = false /\
  forallb (fun m => negb (arming m)) (usbRx s) = true.

(** The LED shows the half of the beat the last consumed pulse was in:
    lit after pulses 0..11, dark after pulses 12..23. *)
Definition led_in_phase (s : State) : Prop :=
  LED_BUILTIN s = ((pulseCounter s + 23) mod 24 <? 12).

(** A tempo value that fits the [byte] parameter of the handlers. *)
Definition byte_valued (m : Message) : bool :=
  match m with
  | ControlChange _ _ value => (0 <=? value) && (value <=? 255)
  | ProgramChange _ value => (0 <=? value) && (value <=? 255)
  | _ => true
  end.

Definition byte_event (ev : Event) : bool :=
  match ev with
  | Host m => byte_valued m
  | _ => true
  end.

(** The check behind the bounds on the interval over the whole [byte]
    range. *)
Definition interval_close (v : Z) : bool :=
  Float32.uint32_defined (pulse_period (BPM_of_value v))
  && (exact_interval v - 1 <=? clockIntervalUs v)
  && (clockIntervalUs v <=? exact_interval v)
  && (8474 <=? clockIntervalUs v)
  && (clockIntervalUs v <=? 62500).

(** A scheduled timer has a period some [byte] tempo value maps to. *)
Definition period_in_range (s : State) : Prop :=
  running (midiClockTimer s) = true ->
  8474 <= period (midiClockTimer s) <= 62500.

(** Equality of two floats, decided. *)
Definition float_eqb (x y : Float32.float) : bool :=
  match x, y with
  | S754_zero s, S754_zero s' => Bool.eqb s s'
  | S754_infinity s, S754_infinity s' => Bool.eqb s s'
  | S754_nan, S754_nan => true
  | S754_finite s m e, S754_finite s' m' e' =>
      Bool.eqb s s' && Pos.eqb m m' && (e =? e')
  | _, _ => false
  end.

(** The float [x] is exactly the integer [n]: its significand times two
    to its exponent is [n], nothing rounded away. *)
Definition float_is_Z (x : Float32.float) (n : Z) : bool :=
  match x with
  | S754_zero _ => n =? 0
  | S754_finite s m e =>
      let z := if s then Zneg m else Zpos m in
      if 0 <=? e then z * 2 ^ e =? n else z =? n * 2 ^ (- e)
  | _ => false
  end.

(** Proof automation: unfold the statements of the sketch, and open a
    state into its variables. *)
Ltac unfold_cmds :=
  unfold loop, usbMIDI_read, dispatch, ClockPulseHandler,
    SongPositionIncrement, SongPositionHandler, RealTimeSystemHandler,
    PC_Handler, CC_Handler, TimerISR,
    midiClockTimer_begin, midiClockTimer_update, midiClockTimer_end,
    usbMIDI_sendRealTime, usbMIDI_send_now, usbMIDI_emit, digitalWrite_LED,
    set_midiClockTimer, set_pulsePending, set_extClockPending,
    set_pulseCounter, set_SPP, set_timerEn, set_usbRx,
    seq_cmd, if_cmd, skip in *.

Ltac break_state s :=
  destruct s as [[run_ per_] pend_ ext_ cnt_ spp_ en_ led_ tx_ rx_];
  cbn [midiClockTimer pulsePending extClockPending pulseCounter SPP timerEn
       LED_BUILTIN usbTx usbRx running period] in *.

(* ================================================================== *)
(** * Properties of the tempo mapper *)
(* ================================================================== *)

Section RangeChecks.

Variable P : Z -> bool.
Variable lo : Z.
Variable n : nat.

Lemma Zrange_In (v : Z) :
  lo <= v < lo + Z.of_nat n -> In v (Zrange lo n).
Proof.
  intros Hv. unfold Zrange. apply in_map_iff.
  exists (Z.to_nat (v - lo)). split.
  - rewrite Z2Nat.id by lia. lia.
  - apply in_seq. lia.
Qed.

(** A boolean check over [lo, lo + n) settles the property on the whole
    range. *)
Lemma Zrange_forallb :
  forallb P (Zrange lo n) = true ->
  forall v, lo <= v < lo + Z.of_nat n -> P v = true.
Proof.
  intros Hall v Hv. rewrite forallb_forall in Hall.
  apply Hall, Zrange_In, Hv.
Qed.

End RangeChecks.

Lemma interval_ok_all : forallb interval_ok (Zrange 0 128) = true.
Proof. vm_compute. reflexivity. Qed.

Lemma interval_drops_all : forallb interval_drops (Zrange 0 127) = true.
Proof. vm_compute. reflexivity. Qed.

Lemma float_eqb_eq (x y : Float32.float) : float_eqb x y = true -> x = y.
Proof.
  destruct x as [s|s| |s m e], y as [s'|s'| |s' m' e'];
    cbn [float_eqb]; intros H; try discriminate H.
  - apply Bool.eqb_prop in H. congruence.
  - apply Bool.eqb_prop in H. congruence.
  - reflexivity.
  - apply andb_true_iff in H. destruct H as [H He].
    apply andb_true_iff in H. destruct H as [Hs Hm].
    apply Bool.eqb_prop in Hs. apply Pos.eqb_eq in Hm. apply Z.eqb_eq in He.
    congruence.
Qed.

(** The byte-to-BPM step is exact: [value + 40] as a float. *)
Lemma BPM_of_value_exact (v : Z) :
  0 <= v <= 127 -> BPM_of_value v = Float32.of_Z (v + 40).
Proof.
  intros Hv. apply float_eqb_eq.
  assert (H : forallb (fun v => float_eqb (BPM_of_value v)
                                  (Float32.of_Z (v + 40)))
                (Zrange 0 128) = true) by (vm_compute; reflexivity).
  apply (Zrange_forallb _ 0 128 H v). lia.
Qed.

Lemma clockIntervalUs_step (v : Z) :
  0 <= v < 127 -> clockIntervalUs (v + 1) < clockIntervalUs v.
Proof.
  intros Hv.
  pose proof (Zrange_forallb _ 0 127 interval_drops_all v ltac:(lia)) as H.
  unfold interval_drops in H. lia.
Qed.

Lemma clockIntervalUs_pos (v : Z) :
  0 <= v <= 127 -> 0 < clockIntervalUs v.
Proof.
  intros Hv.
  pose proof (Zrange_forallb _ 0 128 interval_ok_all v ltac:(lia)) as H.
  unfold interval_ok in H.
  apply andb_true_iff in H. destruct H as [H _].
  apply andb_true_iff in H. destruct H as [_ H]. lia.
Qed.

(** Strict decrease over [k + 1] steps, by induction on [k]. *)
Lemma clockIntervalUs_steps (k : nat) (v : Z) :
  0 <= v -> v + Z.of_nat (S k) <= 127 ->
  clockIntervalUs (v + Z.of_nat (S k)) < clockIntervalUs v.
Proof.
  induction k as [|k IH]; intros H0 Hhi.
  - change (Z.of_nat 1) with 1. apply clockIntervalUs_step. lia.
  - replace (v + Z.of_nat (S (S k))) with ((v + Z.of_nat (S k)) + 1) by lia.
    apply Z.lt_trans with (clockIntervalUs (v + Z.of_nat (S k))).
    + apply clockIntervalUs_step. lia.
    + apply IH; lia.
Qed.

(** C1, as the spec words it, fails: at control value 10 (50 BPM) the
    sketch yields 49999 microseconds where the exact quotient is 50000. *)
Lemma tempo_interval_not_exact_quotient :
  ~ (forall v, 0 <= v <= 127 ->
       clockIntervalUs v = exact_interval v /\ 0 < clockIntervalUs v).
Proof.
  intros H. destruct (H 10 ltac:(lia)) as [Heq _].
  vm_compute in Heq. discriminate Heq.
Qed.

(** C1 (amended): for every control value v in [0,127] the interval is the
    single-precision value of 1 / (24 * (v + 40) * (1/60) * 1e-6)
    truncated to the integer microsecond; the conversion is in its defined
    range, the interval is strictly positive, and it equals
    60,000,000 / ((v + 40) * 24) truncated for every v except 10 and 60
    (50 and 100 BPM), where it is one microsecond less; v = 20 yields
    41666. *)
Theorem tempo_interval_single_precision :
  forall v, 0 <= v <= 127 ->
    Float32.uint32_defined (pulse_period (BPM_of_value v)) = true /\
    0 < clockIntervalUs v /\
    (v <> 10 -> v <> 60 -> clockIntervalUs v = exact_interval v) /\
    (v = 10 \/ v = 60 -> clockIntervalUs v = exact_interval v - 1) /\
    clockIntervalUs 20 = 41666.
Proof.
  intros v Hv.
  pose proof (Zrange_forallb _ 0 128 interval_ok_all v ltac:(lia)) as H.
  unfold interval_ok in H.
  apply andb_true_iff in H. destruct H as [H Heq].
  apply andb_true_iff in H. destruct H as [Hdef Hpos].
  apply Z.eqb_eq in Heq. apply Z.ltb_lt in Hpos.
  split; [exact Hdef|]. split; [exact Hpos|]. split; [|split].
  - intros H10 H60.
    destruct (Z.eqb_spec v 10); [contradiction|].
    destruct (Z.eqb_spec v 60); [contradiction|]. exact Heq.
  - intros [-> | ->]; exact Heq.
  - vm_compute. reflexivity.
Qed.

Lemma tempo_interval_single_precision_witness :
  0 <= 10 <= 127 /\
  clockIntervalUs 10 = exact_interval 10 - 1 /\
  0 < clockIntervalUs 10.
Proof.
  split; [lia|].
  destruct (tempo_interval_single_precision 10 ltac:(lia))
    as (_ & Hpos & _ & Hoff & _).
  split; [apply Hoff; left; reflexivity | exact Hpos].
Defined.

(** C8: for control values v1 < v2 in [0,127] the interval for v2 is
    smaller than the one for v1, and both are strictly positive. *)
Theorem tempo_interval_decreasing :
  forall v1 v2, 0 <= v1 -> v1 < v2 -> v2 <= 127 ->
    clockIntervalUs v2 < clockIntervalUs v1 /\
    0 < clockIntervalUs v2 /\ 0 < clockIntervalUs v1.
Proof.
  intros v1 v2 H0 Hlt Hhi. split; [|split].
  - replace v2 with (v1 + Z.of_nat (S (Z.to_nat (v2 - v1 - 1)))) by lia.
    apply clockIntervalUs_steps; lia.
  - apply clockIntervalUs_pos; lia.
  - apply clockIntervalUs_pos; lia.
Qed.

Lemma tempo_interval_decreasing_witness :
  clockIntervalUs 127 < clockIntervalUs 0 /\
  0 < clockIntervalUs 127 /\ 0 < clockIntervalUs 0.
Proof.
  apply (tempo_interval_decreasing 0 127); lia.
Defined.

(* ================================================================== *)
(** * Properties of the handlers *)
(* ================================================================== *)

(** The three cases of the [switch], and what falls through it. *)
Lemma RealTime_Start_eq (s : State) :
  RealTimeSystemHandler usbMIDI_Start s =
  if timerEn s
  then set_timerEn false (midiClockTimer_end (set_pulseCounter 0 s))
  else set_pulseCounter 0 s.
Proof. unfold RealTimeSystemHandler, seq_cmd, if_cmd, skip. reflexivity. Qed.

Lemma RealTime_Stop_eq (s : State) :
  RealTimeSystemHandler usbMIDI_Stop s =
  if timerEn s then set_timerEn false (midiClockTimer_end s) else s.
Proof. unfold RealTimeSystemHandler, seq_cmd, if_cmd, skip. reflexivity. Qed.

Lemma RealTime_Clock_eq (s : State) :
  RealTimeSystemHandler usbMIDI_Clock s = set_extClockPending true s.
Proof. reflexivity. Qed.

Lemma RealTime_other_eq (b : Z) (s : State) :
  b <> usbMIDI_Start -> b <> usbMIDI_Stop -> b <> usbMIDI_Clock ->
  RealTimeSystemHandler b s = s.
Proof.
  intros HS HP HC. unfold RealTimeSystemHandler.
  destruct (Z.eqb_spec b usbMIDI_Start); [contradiction|].
  destruct (Z.eqb_spec b usbMIDI_Stop); [contradiction|].
  destruct (Z.eqb_spec b usbMIDI_Clock); [contradiction|].
  reflexivity.
Qed.

(** C2: in every state, Start resets [pulseCounter] to 0; an armed timer
    is stopped and [timerEn] cleared; with the timer not armed nothing but
    [pulseCounter] changes. *)
Theorem Start_resets_counter_and_disarms :
  forall s,
    let s' := RealTimeSystemHandler usbMIDI_Start s in
    pulseCounter s' = 0 /\
    timerEn s' = false /\
    running (midiClockTimer s') =
      (if timerEn s then false else running (midiClockTimer s)) /\
    period (midiClockTimer s') = period (midiClockTimer s) /\
    extClockPending s' = extClockPending s /\
    same_periphery s s' /\
    (timerEn s = false ->
       midiClockTimer s' = midiClockTimer s /\ timerEn s' = timerEn s).
Proof.
  intros s s'. subst s'. rewrite RealTime_Start_eq.
  unfold same_periphery. break_state s.
  destruct en_; unfold_cmds; cbn; repeat split; congruence.
Qed.

Lemma Start_resets_counter_and_disarms_witness :
  timerEn armed = true /\
  pulseCounter armed = 5 /\
  pulseCounter (RealTimeSystemHandler usbMIDI_Start armed) = 0 /\
  running (midiClockTimer (RealTimeSystemHandler usbMIDI_Start armed)) = false /\
  midiClockTimer (RealTimeSystemHandler usbMIDI_Start mid_beat)
    = midiClockTimer mid_beat.
Proof.
  split; [reflexivity|]. split; [reflexivity|].
  destruct (Start_resets_counter_and_disarms armed) as (H0 & _ & Hr & _).
  destruct (Start_resets_counter_and_disarms mid_beat)
    as (_ & _ & _ & _ & _ & _ & Hd).
  split; [exact H0|]. split; [exact Hr|].
  apply Hd. reflexivity.
Defined.

(** C7: in every state, Stop stops an armed timer and clears [timerEn],
    and leaves every other variable as it was, [pulseCounter] included;
    with the timer not armed the state is unchanged, so a second Stop
    does nothing. *)
Theorem Stop_disarms_and_keeps_counter :
  forall s,
    let s' := RealTimeSystemHandler usbMIDI_Stop s in
    timerEn s' = false /\
    running (midiClockTimer s') =
      (if timerEn s then false else running (midiClockTimer s)) /\
    period (midiClockTimer s') = period (midiClockTimer s) /\
    pulseCounter s' = pulseCounter s /\
    extClockPending s' = extClockPending s /\
    same_periphery s s' /\
    (timerEn s = false -> s' = s) /\
    RealTimeSystemHandler usbMIDI_Stop s' = s'.
Proof.
  intros s s'. subst s'. rewrite !RealTime_Stop_eq.
  unfold same_periphery. break_state s.
  destruct en_; unfold_cmds; cbn; repeat split; congruence.
Qed.

Lemma Stop_disarms_and_keeps_counter_witness :
  timerEn armed = true /\
  timerEn (RealTimeSystemHandler usbMIDI_Stop armed) = false /\
  pulseCounter (RealTimeSystemHandler usbMIDI_Stop armed) = 5 /\
  RealTimeSystemHandler usbMIDI_Stop mid_beat = mid_beat.
Proof.
  split; [reflexivity|].
  destruct (Stop_disarms_and_keeps_counter armed) as (He & _ & _ & Hc & _).
  destruct (Stop_disarms_and_keeps_counter mid_beat)
    as (_ & _ & _ & _ & _ & _ & Hd & _).
  split; [exact He|]. split; [exact Hc|].
  apply Hd. reflexivity.
Defined.

(** Both tempo handlers run the same body once their guard holds. *)
Lemma CC_Tempo_eq (channel value : Z) (s : State) :
  CC_Handler channel CC_Tempo value s =
  if timerEn s
  then midiClockTimer_update (clockIntervalUs value) s
  else set_timerEn true (midiClockTimer_begin (clockIntervalUs value) s).
Proof. unfold CC_Handler, seq_cmd, if_cmd. reflexivity. Qed.

Lemma PC_Tempo_eq (value : Z) (s : State) :
  PC_Handler PC_Tempo value s =
  if timerEn s
  then midiClockTimer_update (clockIntervalUs value) s
  else set_timerEn true (midiClockTimer_begin (clockIntervalUs value) s).
Proof. unfold PC_Handler, seq_cmd, if_cmd. reflexivity. Qed.

Lemma arm_body_arms (us : Z) (s : State) :
  arms_timer us s
    (if timerEn s
     then midiClockTimer_update us s
     else set_timerEn true (midiClockTimer_begin us s)).
Proof.
  unfold arms_timer, same_periphery, coherent. break_state s.
  destruct en_; unfold_cmds; cbn.
  - repeat split; try reflexivity; subst run_; reflexivity.
  - repeat split; reflexivity.
Qed.

(** C9: a Control Change arms or reprograms the timer on every channel
    when its controller number is 3 and changes nothing otherwise; a
    Program Change does so on channel 15 and changes nothing on any other
    channel; after a qualifying message the timer is armed whether it was
    dormant or running. *)
Theorem tempo_messages_arm_timer :
  (forall channel value s,
     arms_timer (clockIntervalUs value) s
       (CC_Handler channel CC_Tempo value s)) /\
  (forall channel control value s,
     control <> CC_Tempo -> CC_Handler channel control value s = s) /\
  (forall value s,
     arms_timer (clockIntervalUs value) s (PC_Handler PC_Tempo value s)) /\
  (forall channel value s,
     channel <> PC_Tempo -> PC_Handler channel value s = s).
Proof.
  split; [|split; [|split]].
  - intros channel value s. rewrite CC_Tempo_eq. apply arm_body_arms.
  - intros channel control value s Hc. unfold CC_Handler.
    destruct (Z.eqb_spec control CC_Tempo); [contradiction | reflexivity].
  - intros value s. rewrite PC_Tempo_eq. apply arm_body_arms.
  - intros channel value s Hc. unfold PC_Handler.
    destruct (Z.eqb_spec channel PC_Tempo); [contradiction | reflexivity].
Qed.

Lemma tempo_messages_arm_timer_witness :
  (coherent initial /\
   running (midiClockTimer (PC_Handler PC_Tempo 0 initial)) = true /\
   period (midiClockTimer (PC_Handler PC_Tempo 0 initial)) = clockIntervalUs 0) /\
  (coherent armed /\
   running (midiClockTimer (CC_Handler 7 CC_Tempo 100 armed)) = true /\
   period (midiClockTimer (CC_Handler 7 CC_Tempo 100 armed))
     = clockIntervalUs 100) /\
  (4 <> CC_Tempo /\ CC_Handler 1 4 20 initial = initial) /\
  (14 <> PC_Tempo /\ PC_Handler 14 20 initial = initial).
Proof.
  destruct tempo_messages_arm_timer as (Hcc & Hcc' & Hpc & Hpc').
  assert (Hi : coherent initial) by reflexivity.
  assert (Ha : coherent armed) by reflexivity.
  split; [|split; [|split]].
  - split; [exact Hi|].
    destruct (Hpc 0 initial) as (_ & Hrun & _). exact (Hrun Hi).
  - split; [exact Ha|].
    destruct (Hcc 7 100 armed) as (_ & Hrun & _). exact (Hrun Ha).
  - assert (Hne : 4 <> CC_Tempo) by (unfold CC_Tempo; lia).
    split; [exact Hne | exact (Hcc' 1 4 20 initial Hne)].
  - assert (Hne : 14 <> PC_Tempo) by (unfold PC_Tempo; lia).
    split; [exact Hne | exact (Hpc' 14 20 initial Hne)].
Defined.

(** One pulse step in the sketch as built ([SPP_SYNC] off). *)
Lemma ClockPulseHandler_eq (s : State) :
  ClockPulseHandler false s =
  mkState (midiClockTimer s) (pulsePending s) (extClockPending s)
    ((pulseCounter s + 1) mod 24) (SPP s) (timerEn s)
    (if pulseCounter s =? 0 then HIGH
     else if pulseCounter s =? 12 then LOW else LED_BUILTIN s)
    (usbTx s) (usbRx s).
Proof.
  assert (Hsmall : to_uint8 ((pulseCounter s + 1) mod 24)
                   = (pulseCounter s + 1) mod 24).
  { unfold to_uint8. apply Z.mod_small.
    pose proof (Z.mod_pos_bound (pulseCounter s + 1) 24 ltac:(lia)). lia. }
  break_state s. unfold_cmds. unfold MIDI_CLOCK_PPN, LED_BEAT_DIV_RATIO in *.
  change (24 / 2) with 12.
  cbn [midiClockTimer pulsePending extClockPending pulseCounter SPP timerEn
       LED_BUILTIN usbTx usbRx].
  destruct (cnt_ =? 0) eqn:E0;
    cbn [midiClockTimer pulsePending extClockPending pulseCounter SPP timerEn
         LED_BUILTIN usbTx usbRx];
    [|destruct (cnt_ =? 12) eqn:E12;
      cbn [midiClockTimer pulsePending extClockPending pulseCounter SPP
           timerEn LED_BUILTIN usbTx usbRx]];
    rewrite Hsmall; reflexivity.
Qed.

(** C5: for every prior value of [pulseCounter], one pulse step leaves the
    LED on when the prior value is 0, off when it is 12, as it was for
    every other value, and advances [pulseCounter] to (prior + 1) mod 24;
    nothing else changes. *)
Theorem pulse_step_led_and_counter :
  forall s,
    let s' := ClockPulseHandler SPP_SYNC s in
    LED_BUILTIN s' =
      (if pulseCounter s =? 0 then true
       else if pulseCounter s =? 12 then false
       else LED_BUILTIN s) /\
    pulseCounter s' = (pulseCounter s + 1) mod 24 /\
    midiClockTimer s' = midiClockTimer s /\
    timerEn s' = timerEn s /\
    pulsePending s' = pulsePending s /\
    extClockPending s' = extClockPending s /\
    SPP s' = SPP s /\
    usbTx s' = usbTx s /\
    usbRx s' = usbRx s.
Proof.
  intros s s'. subst s'. unfold SPP_SYNC. rewrite ClockPulseHandler_eq.
  cbn. repeat split; reflexivity.
Qed.

(** C10: a real-time Clock sets [extClockPending] and changes nothing
    else, whether or not the internal timer is armed; the next idle pass
    of [loop] then runs the pulse step on it; a real-time byte that is
    none of Start, Stop and Clock (Continue, Active Sensing) leaves the
    state as it was. *)
Theorem Clock_sets_external_flag_only :
  (forall s,
     let s' := RealTimeSystemHandler usbMIDI_Clock s in
     extClockPending s' = true /\
     midiClockTimer s' = midiClockTimer s /\
     timerEn s' = timerEn s /\
     pulseCounter s' = pulseCounter s /\
     same_periphery s s') /\
  (forall spp s,
     pulsePending s = false ->
     loop spp (RealTimeSystemHandler usbMIDI_Clock s)
     = ClockPulseHandler spp (set_extClockPending false s)) /\
  (forall b s,
     b <> usbMIDI_Start -> b <> usbMIDI_Stop -> b <> usbMIDI_Clock ->
     RealTimeSystemHandler b s = s) /\
  (forall s, RealTimeSystemHandler usbMIDI_Continue s = s) /\
  (forall s, RealTimeSystemHandler usbMIDI_ActiveSensing s = s).
Proof.
  split; [|split; [|split; [|split]]].
  - intros s s'. subst s'. rewrite RealTime_Clock_eq.
    unfold same_periphery. break_state s. cbn. repeat split; reflexivity.
  - intros spp s Hp. rewrite RealTime_Clock_eq.
    break_state s. subst pend_. reflexivity.
  - intros b s. apply RealTime_other_eq.
  - intros s. reflexivity.
  - intros s. reflexivity.
Qed.

Lemma Clock_sets_external_flag_only_witness :
  timerEn armed = true /\
  pulsePending armed = false /\
  pulseCounter (loop SPP_SYNC (RealTimeSystemHandler usbMIDI_Clock armed)) = 6 /\
  RealTimeSystemHandler 255 armed = armed.
Proof.
  destruct Clock_sets_external_flag_only as (_ & Hloop & Hother & _).
  split; [reflexivity|]. split; [reflexivity|]. split.
  - rewrite (Hloop SPP_SYNC armed); reflexivity.
  - apply Hother; unfold usbMIDI_Start, usbMIDI_Stop, usbMIDI_Clock; lia.
Defined.

(** What the pulse step leaves alone in either build. *)
Lemma ClockPulseHandler_frame (spp_sync : bool) (s : State) :
  let s' := ClockPulseHandler spp_sync s in
  midiClockTimer s' = midiClockTimer s /\
  timerEn s' = timerEn s /\
  pulsePending s' = pulsePending s /\
  extClockPending s' = extClockPending s /\
  usbTx s' = usbTx s /\
  usbRx s' = usbRx s.
Proof.
  break_state s. destruct spp_sync; unfold_cmds; cbn;
    repeat match goal with
      | |- context [if ?c then _ else _] => destruct c; cbn
      end;
    repeat split; reflexivity.
Qed.

(** What a handler leaves alone in either build. *)
Lemma dispatch_frame (spp_sync : bool) (m : Message) (s : State) :
  let s' := dispatch spp_sync m s in
  pulsePending s' = pulsePending s /\
  LED_BUILTIN s' = LED_BUILTIN s /\
  usbTx s' = usbTx s /\
  usbRx s' = usbRx s.
Proof.
  break_state s. destruct m, spp_sync; unfold_cmds; cbn;
    repeat match goal with
      | |- context [if ?c then _ else _] => destruct c; cbn
      end;
    repeat split; reflexivity.
Qed.

(** The sketch sends the Clock and then clears the flag; clearing first
    and sending after gives the same state. *)
Lemma send_then_clear (s : State) :
  set_pulsePending false
    (usbMIDI_send_now (usbMIDI_sendRealTime usbMIDI_Clock s))
  = usbMIDI_send_now
      (usbMIDI_sendRealTime usbMIDI_Clock (set_pulsePending false s)).
Proof. break_state s. reflexivity. Qed.

(** C3: one pass of [loop] does one of three things, the first that
    applies: with an internal pulse pending it clears the flag, sends one
    real-time Clock at once and runs the pulse step; else with an
    external pulse pending it clears that flag and runs the pulse step,
    sending nothing; else it polls the transport once.  A Clock goes out
    for a consumed internal pulse and for nothing else. *)
Theorem loop_one_action_by_priority :
  forall spp s,
    (pulsePending s = true ->
       loop spp s
       = ClockPulseHandler spp
           (usbMIDI_send_now
              (usbMIDI_sendRealTime usbMIDI_Clock
                 (set_pulsePending false s))) /\
       usbTx (loop spp s) = usbTx s ++ [sendRealTime usbMIDI_Clock; send_now] /\
       pulsePending (loop spp s) = false /\
       extClockPending (loop spp s) = extClockPending s /\
       usbRx (loop spp s) = usbRx s) /\
    (pulsePending s = false -> extClockPending s = true ->
       loop spp s = ClockPulseHandler spp (set_extClockPending false s) /\
       usbTx (loop spp s) = usbTx s /\
       pulsePending (loop spp s) = false /\
       extClockPending (loop spp s) = false /\
       usbRx (loop spp s) = usbRx s) /\
    (pulsePending s = false -> extClockPending s = false ->
       loop spp s = usbMIDI_read spp s /\
       usbTx (loop spp s) = usbTx s /\
       pulsePending (loop spp s) = false /\
       LED_BUILTIN (loop spp s) = LED_BUILTIN s /\
       usbRx (loop spp s) = tl (usbRx s)).
Proof.
  intros spp s. split; [|split].
  - intros Hp.
    assert (E : loop spp s
                = ClockPulseHandler spp
                    (set_pulsePending false
                       (usbMIDI_send_now
                          (usbMIDI_sendRealTime usbMIDI_Clock s)))).
    { unfold loop, seq_cmd, if_cmd. rewrite Hp. reflexivity. }
    split; [rewrite E, send_then_clear; reflexivity|]. rewrite E.
    destruct (ClockPulseHandler_frame spp
                (set_pulsePending false
                   (usbMIDI_send_now (usbMIDI_sendRealTime usbMIDI_Clock s))))
      as (_ & _ & Hpend & Hext & Htx & Hrx).
    rewrite Hpend, Hext, Htx, Hrx. break_state s. cbn.
    rewrite <- app_assoc. repeat split; reflexivity.
  - intros Hp He.
    assert (E : loop spp s = ClockPulseHandler spp (set_extClockPending false s)).
    { unfold loop, seq_cmd, if_cmd. rewrite Hp, He. reflexivity. }
    split; [exact E|]. rewrite E.
    destruct (ClockPulseHandler_frame spp (set_extClockPending false s))
      as (_ & _ & Hpend & Hext & Htx & Hrx).
    rewrite Hpend, Hext, Htx, Hrx. break_state s. cbn.
    repeat split; try reflexivity. exact Hp.
  - intros Hp He.
    assert (E : loop spp s = usbMIDI_read spp s).
    { unfold loop, seq_cmd, if_cmd. rewrite Hp, He. reflexivity. }
    split; [exact E|]. rewrite E. unfold usbMIDI_read.
    destruct (usbRx s) as [|m rest] eqn:Hq.
    + rewrite Hq. repeat split; try reflexivity. exact Hp.
    + destruct (dispatch_frame spp m (set_usbRx rest s))
        as (Hpend & Hled & Htx & Hrx).
      rewrite Hpend, Hled, Htx, Hrx. break_state s. cbn.
      repeat split; try reflexivity. exact Hp.
Qed.

Lemma loop_one_action_by_priority_witness :
  usbTx (loop SPP_SYNC (TimerISR armed))
    = [sendRealTime usbMIDI_Clock; send_now] /\
  usbTx (loop SPP_SYNC (RealTimeSystemHandler usbMIDI_Clock armed)) = [] /\
  usbRx (loop SPP_SYNC (exec SPP_SYNC (Host (RealTime usbMIDI_Stop)) armed)) = [].
Proof.
  destruct (loop_one_action_by_priority SPP_SYNC (TimerISR armed))
    as (H1 & _ & _).
  destruct (loop_one_action_by_priority SPP_SYNC
              (RealTimeSystemHandler usbMIDI_Clock armed)) as (_ & H2 & _).
  destruct (loop_one_action_by_priority SPP_SYNC
              (exec SPP_SYNC (Host (RealTime usbMIDI_Stop)) armed))
    as (_ & _ & H3).
  split; [|split].
  - destruct (H1 eq_refl) as (_ & Htx & _). exact Htx.
  - destruct (H2 eq_refl eq_refl) as (_ & Htx & _). exact Htx.
  - destruct (H3 eq_refl eq_refl) as (_ & _ & _ & _ & Hrx). exact Hrx.
Defined.

(* ================================================================== *)
(** * The pulse counter over a run *)
(* ================================================================== *)

(** In either build the pulse step leaves the counter advanced by one
    modulo 24, or at 0 when the song position code resynchronises. *)
Lemma ClockPulseHandler_counter (spp_sync : bool) (s : State) :
  pulseCounter (ClockPulseHandler spp_sync s) = (pulseCounter s + 1) mod 24 \/
  pulseCounter (ClockPulseHandler spp_sync s) = 0.
Proof.
  destruct spp_sync.
  - assert (Hsmall : to_uint8 ((pulseCounter s + 1) mod 24)
                     = (pulseCounter s + 1) mod 24).
    { unfold to_uint8. apply Z.mod_small.
      pose proof (Z.mod_pos_bound (pulseCounter s + 1) 24 ltac:(lia)). lia. }
    break_state s. unfold_cmds. unfold MIDI_CLOCK_PPN in *. cbn.
    repeat match goal with
      | |- context [if ?c then _ else _] => destruct c; cbn
      end;
      rewrite ?Hsmall; auto.
  - rewrite ClockPulseHandler_eq. left. reflexivity.
Qed.

(** A handler leaves the counter alone or resets it. *)
Lemma dispatch_counter (spp_sync : bool) (m : Message) (s : State) :
  pulseCounter (dispatch spp_sync m s) = pulseCounter s \/
  pulseCounter (dispatch spp_sync m s) = 0.
Proof.
  break_state s. destruct m, spp_sync; unfold_cmds; cbn;
    repeat match goal with
      | |- context [if ?c then _ else _] => destruct c; cbn
      end;
    auto.
Qed.

Lemma dispatch_in_range (spp_sync : bool) (m : Message) (s : State) :
  counter_in_range s -> counter_in_range (dispatch spp_sync m s).
Proof.
  unfold counter_in_range. intros H.
  destruct (dispatch_counter spp_sync m s) as [-> | ->]; lia.
Qed.

Lemma ClockPulseHandler_in_range (spp_sync : bool) (s : State) :
  counter_in_range (ClockPulseHandler spp_sync s).
Proof.
  unfold counter_in_range.
  pose proof (Z.mod_pos_bound (pulseCounter s + 1) 24 ltac:(lia)).
  destruct (ClockPulseHandler_counter spp_sync s) as [-> | ->]; lia.
Qed.

Lemma loop_in_range (spp_sync : bool) (s : State) :
  counter_in_range s -> counter_in_range (loop spp_sync s).
Proof.
  intros H. unfold loop, seq_cmd, if_cmd.
  destruct (pulsePending s); [apply ClockPulseHandler_in_range|].
  destruct (extClockPending s); [apply ClockPulseHandler_in_range|].
  unfold usbMIDI_read. destruct (usbRx s) as [|m rest]; [exact H|].
  apply dispatch_in_range. exact H.
Qed.

Lemma exec_in_range (spp_sync : bool) (ev : Event) (s : State) :
  counter_in_range s -> counter_in_range (exec spp_sync ev s).
Proof.
  intros H. destruct ev as [| |m]; cbn [exec].
  - destruct (running (midiClockTimer s)); exact H.
  - apply loop_in_range, H.
  - exact H.
Qed.

Lemma run_in_range (spp_sync : bool) (evs : list Event) :
  forall s, counter_in_range s -> counter_in_range (run spp_sync evs s).
Proof.
  unfold run. induction evs as [|ev evs IH]; intros s H; cbn [fold_left].
  - exact H.
  - apply IH, exec_in_range, H.
Qed.


Lemma pulses_counter (n : nat) (s : State) :
  counter_in_range s ->
  pulseCounter (pulses n s) = (pulseCounter s + Z.of_nat n) mod 24.
Proof.
  unfold counter_in_range, pulses. intros H.
  induction n as [|n IH].
  - change (Nat.iter 0 (ClockPulseHandler SPP_SYNC) s) with s.
    change (Z.of_nat 0) with 0. rewrite Z.add_0_r.
    symmetry. apply Z.mod_small. exact H.
  - rewrite Nat.iter_succ. unfold SPP_SYNC in *. rewrite ClockPulseHandler_eq.
    cbn [pulseCounter]. rewrite IH.
    rewrite Zplus_mod_idemp_l. f_equal. lia.
Qed.

(** C6: starting from the initial value 0, [pulseCounter] is in [0, 24)
    after every event of every run (timer interrupt, pass of [loop],
    message delivered), and every handler keeps it there; consuming
    pulses steps it through 0..23 and back to 0, and an internal pulse
    and an external pulse advance it alike. *)
Theorem pulseCounter_stays_in_range :
  (forall spp evs, counter_in_range (run spp evs initial)) /\
  (forall spp ev s,
     counter_in_range s -> counter_in_range (exec spp ev s)) /\
  (forall spp m s,
     counter_in_range s -> counter_in_range (dispatch spp m s)) /\
  (forall n s,
     counter_in_range s ->
     pulseCounter (pulses n s) = (pulseCounter s + Z.of_nat n) mod 24) /\
  (forall s,
     pulseCounter (loop SPP_SYNC (set_pulsePending true s))
       = (pulseCounter s + 1) mod 24 /\
     pulseCounter
       (loop SPP_SYNC (set_extClockPending true (set_pulsePending false s)))
       = (pulseCounter s + 1) mod 24).
Proof.
  split; [|split; [|split; [|split]]].
  - intros spp evs. apply run_in_range. unfold counter_in_range. cbn. lia.
  - intros spp ev s. apply exec_in_range.
  - intros spp m s. apply dispatch_in_range.
  - intros n s. apply pulses_counter.
  - intros s. unfold SPP_SYNC. split.
    + change (loop false (set_pulsePending true s))
        with (ClockPulseHandler false
                (set_pulsePending false
                   (usbMIDI_send_now
                      (usbMIDI_sendRealTime usbMIDI_Clock
                         (set_pulsePending true s))))).
      rewrite ClockPulseHandler_eq. reflexivity.
    + change (loop false (set_extClockPending true (set_pulsePending false s)))
        with (ClockPulseHandler false
                (set_extClockPending false
                   (set_extClockPending true (set_pulsePending false s)))).
      rewrite ClockPulseHandler_eq. reflexivity.
Qed.

Lemma pulseCounter_stays_in_range_witness :
  counter_in_range mid_beat /\
  pulseCounter (pulses 19 mid_beat) = 0 /\
  pulseCounter (pulses 24 mid_beat) = 5 /\
  counter_in_range
    (exec SPP_SYNC (Host (RealTime usbMIDI_Start)) mid_beat).
Proof.
  destruct pulseCounter_stays_in_range as (_ & Hexec & _ & Hcyc & _).
  assert (Hm : counter_in_range mid_beat)
    by (unfold counter_in_range; cbn; lia).
  split; [exact Hm|]. split; [|split].
  - rewrite (Hcyc 19%nat mid_beat Hm). reflexivity.
  - rewrite (Hcyc 24%nat mid_beat Hm). reflexivity.
  - apply Hexec, Hm.
Defined.

(* ================================================================== *)
(** * Song position *)
(* ================================================================== *)

Lemma to_uint16_idem (n : Z) : to_uint16 (to_uint16 n) = to_uint16 n.
Proof. unfold to_uint16. apply Z.mod_mod. lia. Qed.

Lemma SongPositionHandler_eq (beats : Z) (s : State) :
  SongPositionHandler beats s =
  mkState (midiClockTimer s) (pulsePending s) (extClockPending s)
    (if to_uint16 beats mod 16 =? 0 then pulseCounter s else 0)
    (to_uint16 beats) (timerEn s) (LED_BUILTIN s) (usbTx s) (usbRx s).
Proof.
  break_state s. unfold_cmds. unfold SPP_BEATS_PER_MEASURE.
  cbn [midiClockTimer pulsePending extClockPending pulseCounter SPP timerEn
       LED_BUILTIN usbTx usbRx].
  destruct (to_uint16 beats mod 16 =? 0); reflexivity.
Qed.

(** C4 (evaluation of the code): with the song position code compiled
    in, the handler stores the received beat count and the per-beat
    increment adds one (modulo 2^16), but [pulseCounter] is forced to 0
    when the resulting position is NOT a multiple of 16 and kept when it
    is: at position 16, a counter at 5 stays 5; at position 17 it is
    reset. *)
Theorem SongPosition_resyncs_off_measure :
  (forall beats s,
     let s' := SongPositionHandler beats s in
     SPP s' = to_uint16 beats /\
     pulseCounter s' =
       (if SPP s' mod 16 =? 0 then pulseCounter s else 0)) /\
  (forall s,
     let s' := SongPositionIncrement s in
     SPP s' = to_uint16 (SPP s + 1) /\
     pulseCounter s' =
       (if SPP s' mod 16 =? 0 then pulseCounter s else 0)) /\
  pulseCounter (SongPositionHandler 16 mid_beat) = 5 /\
  pulseCounter (SongPositionHandler 17 mid_beat) = 0.
Proof.
  split; [|split; [|split]].
  - intros beats s s'. subst s'. rewrite SongPositionHandler_eq.
    cbn [SPP pulseCounter]. split; reflexivity.
  - intros s s'. subst s'. unfold SongPositionIncrement, seq_cmd.
    rewrite SongPositionHandler_eq. break_state s. unfold set_SPP.
    cbn [SPP pulseCounter]. rewrite to_uint16_idem. split; reflexivity.
  - reflexivity.
  - reflexivity.
Qed.

(* ================================================================== *)
(** * Further properties: tempo over the whole byte range *)
(* ================================================================== *)

Lemma interval_close_all : forallb interval_close (Zrange 0 256) = true.
Proof. vm_compute. reflexivity. Qed.

Lemma interval_close_byte (v : Z) :
  0 <= v <= 255 -> interval_close v = true.
Proof.
  intros Hv. apply (Zrange_forallb interval_close 0 256 interval_close_all).
  lia.
Qed.

Lemma clockIntervalUs_byte_bounds (v : Z) :
  0 <= v <= 255 -> 8474 <= clockIntervalUs v <= 62500.
Proof.
  intros Hv. pose proof (interval_close_byte v Hv) as H.
  unfold interval_close in H.
  repeat (apply andb_true_iff in H; destruct H as [H ?]). lia.
Qed.

(** X1: for every value the [byte] parameter of the handlers can hold
    (0..255, not only the MIDI range), the conversion to [uint32_t] is in
    its defined range, the interval is the exact quotient
    60,000,000 / ((v + 40) * 24) or one microsecond below it, and it lies
    between 8474 and 62500 microseconds. *)
Theorem tempo_interval_byte_bounds :
  forall v, 0 <= v <= 255 ->
    Float32.uint32_defined (pulse_period (BPM_of_value v)) = true /\
    exact_interval v - 1 <= clockIntervalUs v <= exact_interval v /\
    8474 <= clockIntervalUs v <= 62500.
Proof.
  intros v Hv. pose proof (interval_close_byte v Hv) as H.
  unfold interval_close in H.
  repeat (apply andb_true_iff in H; destruct H as [H ?]).
  split; [exact H|]. lia.
Qed.

Lemma tempo_interval_byte_bounds_witness :
  0 <= 255 <= 255 /\
  exact_interval 255 - 1 <= clockIntervalUs 255 <= exact_interval 255 /\
  8474 <= clockIntervalUs 255 <= 62500.
Proof.
  split; [lia|].
  destruct (tempo_interval_byte_bounds 255 ltac:(lia)) as (_ & Hq & Hb).
  split; [exact Hq | exact Hb].
Defined.

(* ================================================================== *)
(** * Further properties: how the handlers compose *)
(* ================================================================== *)


(** The body both tempo handlers share, applied twice. *)
Lemma arm_body_twice (us1 us2 : Z) (s : State) :
  let arm us st :=
    if timerEn st
    then midiClockTimer_update us st
    else set_timerEn true (midiClockTimer_begin us st) in
  arm us2 (arm us1 s) = arm us2 s.
Proof.
  break_state s. destruct en_, run_; reflexivity.
Qed.

(** X3: tempo messages compose by last-writer-wins.  A qualifying Control
    Change and a qualifying Program Change with the same value have the
    same effect, whatever the channel of the Control Change; and a tempo
    message after another one leaves the state the later message alone
    would have left, so repeating a tempo message changes nothing. *)
Theorem tempo_messages_last_wins :
  (forall channel value s,
     PC_Handler PC_Tempo value s = CC_Handler channel CC_Tempo value s) /\
  (forall channel1 channel2 value1 value2 s,
     CC_Handler channel2 CC_Tempo value2
       (CC_Handler channel1 CC_Tempo value1 s)
     = CC_Handler channel2 CC_Tempo value2 s) /\
  (forall channel value1 value2 s,
     PC_Handler PC_Tempo value2 (CC_Handler channel CC_Tempo value1 s)
     = PC_Handler PC_Tempo value2 s) /\
  (forall channel value s,
     CC_Handler channel CC_Tempo value (CC_Handler channel CC_Tempo value s)
     = CC_Handler channel CC_Tempo value s).
Proof.
  split; [|split; [|split]].
  - intros channel value s. rewrite PC_Tempo_eq, CC_Tempo_eq. reflexivity.
  - intros c1 c2 v1 v2 s. rewrite !CC_Tempo_eq.
    apply (arm_body_twice (clockIntervalUs v1) (clockIntervalUs v2) s).
  - intros c v1 v2 s. rewrite !PC_Tempo_eq, CC_Tempo_eq.
    apply (arm_body_twice (clockIntervalUs v1) (clockIntervalUs v2) s).
  - intros c v s. rewrite !CC_Tempo_eq.
    apply (arm_body_twice (clockIntervalUs v) (clockIntervalUs v) s).
Qed.

(** X4: Start subsumes Stop: Stop followed by Start, Start followed by
    Stop and Start repeated all leave the state one Start leaves; and a
    tempo message after Start and Stop re-arms a coherent timer at the
    new period with [pulseCounter] still at 0. *)
Theorem Start_subsumes_Stop :
  (forall s,
     RealTimeSystemHandler usbMIDI_Start
       (RealTimeSystemHandler usbMIDI_Stop s)
     = RealTimeSystemHandler usbMIDI_Start s) /\
  (forall s,
     RealTimeSystemHandler usbMIDI_Stop
       (RealTimeSystemHandler usbMIDI_Start s)
     = RealTimeSystemHandler usbMIDI_Start s) /\
  (forall s,
     RealTimeSystemHandler usbMIDI_Start
       (RealTimeSystemHandler usbMIDI_Start s)
     = RealTimeSystemHandler usbMIDI_Start s) /\
  (forall channel value s,
     coherent s ->
     let s' := CC_Handler channel CC_Tempo value
                 (RealTimeSystemHandler usbMIDI_Stop
                    (RealTimeSystemHandler usbMIDI_Start s)) in
     timerEn s' = true /\
     midiClockTimer s' = mkTimer true (clockIntervalUs value) /\
     pulseCounter s' = 0).
Proof.
  split; [|split; [|split]].
  - intros s. rewrite !RealTime_Start_eq, RealTime_Stop_eq.
    break_state s. destruct en_; reflexivity.
  - intros s. rewrite RealTime_Stop_eq, !RealTime_Start_eq.
    break_state s. destruct en_; reflexivity.
  - intros s. rewrite !RealTime_Start_eq.
    break_state s. destruct en_; reflexivity.
  - intros channel value s Hc s'. subst s'.
    rewrite CC_Tempo_eq, RealTime_Stop_eq, !RealTime_Start_eq.
    unfold coherent in Hc. break_state s. subst run_.
    destruct en_; cbn; repeat split; reflexivity.
Qed.

Lemma Start_subsumes_Stop_witness :
  coherent armed /\
  midiClockTimer
    (CC_Handler 2 CC_Tempo 0
       (RealTimeSystemHandler usbMIDI_Stop
          (RealTimeSystemHandler usbMIDI_Start armed)))
  = mkTimer true (clockIntervalUs 0) /\
  pulseCounter
    (CC_Handler 2 CC_Tempo 0
       (RealTimeSystemHandler usbMIDI_Stop
          (RealTimeSystemHandler usbMIDI_Start armed))) = 0.
Proof.
  assert (Ha : coherent armed) by reflexivity.
  split; [exact Ha|].
  destruct Start_subsumes_Stop as (_ & _ & _ & H).
  destruct (H 2 0 armed Ha) as (_ & Ht & Hc).
  split; [exact Ht | exact Hc].
Defined.

(* ================================================================== *)
(** * Further properties: the beat LED *)
(* ================================================================== *)

(** One pulse step puts the LED in phase when it was in phase before, or
    when the step is the first of either half of the beat. *)
Lemma pulse_phase_step (s : State) :
  counter_in_range s ->
  led_in_phase s \/ pulseCounter s = 0 \/ pulseCounter s = 12 ->
  led_in_phase (ClockPulseHandler false s).
Proof.
  unfold counter_in_range, led_in_phase. intros Hr H.
  rewrite ClockPulseHandler_eq. break_state s.
  assert (Hin : In cnt_ (Zrange 0 24)) by (apply Zrange_In; lia).
  vm_compute in Hin.
  repeat (destruct Hin as [<- | Hin]; [
    vm_compute;
    first [ reflexivity
          | destruct H as [H | [H | H]];
            [vm_compute in H; exact H | discriminate H | discriminate H] ] |]).
  contradiction.
Qed.

Lemma pulses_in_range (n : nat) (s : State) :
  counter_in_range s -> counter_in_range (pulses n s).
Proof.
  intros H. unfold counter_in_range. rewrite (pulses_counter n s H).
  apply Z.mod_pos_bound. lia.
Qed.

(** After [n] pulses the LED is in phase, unless none of the [n] steps
    started a half of the beat. *)
Lemma pulses_phase (s : State) (n : nat) :
  counter_in_range s ->
  led_in_phase (pulses n s) \/
  (forall k, (k < n)%nat ->
     (pulseCounter s + Z.of_nat k) mod 24 <> 0 /\
     (pulseCounter s + Z.of_nat k) mod 24 <> 12).
Proof.
  intros Hr. induction n as [|n IH].
  - right. intros k Hk. lia.
  - assert (E : pulses (S n) s = ClockPulseHandler false (pulses n s))
      by (unfold pulses, SPP_SYNC; apply Nat.iter_succ).
    pose proof (pulses_in_range n s Hr) as Hrn.
    pose proof (pulses_counter n s Hr) as Hcn.
    destruct IH as [IH | IH].
    + left. rewrite E. apply pulse_phase_step; [exact Hrn | left; exact IH].
    + destruct (Z.eq_dec ((pulseCounter s + Z.of_nat n) mod 24) 0) as [H0|H0].
      * left. rewrite E. apply pulse_phase_step; [exact Hrn|].
        right; left. rewrite Hcn. exact H0.
      * destruct (Z.eq_dec ((pulseCounter s + Z.of_nat n) mod 24) 12)
          as [H12|H12].
        -- left. rewrite E. apply pulse_phase_step; [exact Hrn|].
           right; right. rewrite Hcn. exact H12.
        -- right. intros k Hk.
           destruct (Nat.eq_dec k n) as [-> | Hne].
           ++ split; assumption.
           ++ apply IH. lia.
Qed.

Lemma Start_counter (s : State) :
  pulseCounter (RealTimeSystemHandler usbMIDI_Start s) = 0.
Proof.
  rewrite RealTime_Start_eq. break_state s. destruct en_; reflexivity.
Qed.

Lemma pulses_from_beat_start (s : State) (n : nat) :
  pulseCounter s = 0 -> (1 <= n)%nat -> led_in_phase (pulses n s).
Proof.
  intros H0 Hn.
  assert (Hr : counter_in_range s) by (unfold counter_in_range; lia).
  destruct (pulses_phase s n Hr) as [H | H]; [exact H|].
  destruct (H 0%nat ltac:(lia)) as [Hc _].
  exfalso. apply Hc. rewrite H0. reflexivity.
Qed.

(** X5: the LED follows the beat.  A pulse step keeps the LED in phase
    with the counter (lit after pulses 0..11 of a beat, dark after pulses
    12..23); from any state with the counter in range the LED is in phase
    after 12 pulses at the latest, and from a beat start (counter 0), in
    particular after Start, from the first pulse on. *)
Theorem led_follows_beat_phase :
  (forall s,
     counter_in_range s -> led_in_phase s ->
     led_in_phase (ClockPulseHandler SPP_SYNC s)) /\
  (forall s n,
     counter_in_range s -> (12 <= n)%nat -> led_in_phase (pulses n s)) /\
  (forall s n,
     pulseCounter s = 0 -> (1 <= n)%nat -> led_in_phase (pulses n s)) /\
  (forall s n,
     (1 <= n)%nat ->
     led_in_phase (pulses n (RealTimeSystemHandler usbMIDI_Start s))).
Proof.
  split; [|split; [|split]].
  - intros s Hr Hp. apply pulse_phase_step; [exact Hr | left; exact Hp].
  - intros s n Hr Hn.
    destruct (pulses_phase s n Hr) as [H | H]; [exact H|].
    exfalso. unfold counter_in_range in Hr.
    destruct (Z.eq_dec (pulseCounter s) 0) as [E0 | E0].
    + destruct (H 0%nat ltac:(lia)) as [Hc _]. apply Hc.
      rewrite E0. reflexivity.
    + destruct (Z_le_gt_dec (pulseCounter s) 12) as [Hle | Hgt].
      * destruct (H (Z.to_nat (12 - pulseCounter s)) ltac:(lia)) as [_ Hc].
        apply Hc. rewrite Z2Nat.id by lia.
        replace (pulseCounter s + (12 - pulseCounter s)) with 12 by lia.
        reflexivity.
      * destruct (H (Z.to_nat (24 - pulseCounter s)) ltac:(lia)) as [Hc _].
        apply Hc. rewrite Z2Nat.id by lia.
        replace (pulseCounter s + (24 - pulseCounter s)) with 24 by lia.
        reflexivity.
  - intros s n. apply pulses_from_beat_start.
  - intros s n Hn. apply pulses_from_beat_start; [apply Start_counter | exact Hn].
Qed.

Lemma led_follows_beat_phase_witness :
  counter_in_range mid_beat /\
  led_in_phase (pulses 12 mid_beat) /\
  LED_BUILTIN (pulses 12 mid_beat) = false /\
  led_in_phase (pulses 3 (RealTimeSystemHandler usbMIDI_Start mid_beat)) /\
  LED_BUILTIN (pulses 3 (RealTimeSystemHandler usbMIDI_Start mid_beat)) = true.
Proof.
  destruct led_follows_beat_phase as (_ & H12 & _ & Hstart).
  assert (Hm : counter_in_range mid_beat)
    by (unfold counter_in_range; cbn; lia).
  split; [exact Hm|]. split; [apply (H12 mid_beat 12%nat Hm); lia|].
  split; [reflexivity|]. split; [apply (Hstart mid_beat 3%nat); lia|].
  reflexivity.
Defined.

(* ================================================================== *)
(** * Further properties: pulses through the loop *)
(* ================================================================== *)

(** The three branches of [loop]. *)
Lemma loop_internal (spp : bool) (s : State) :
  pulsePending s = true ->
  loop spp s
  = ClockPulseHandler spp
      (set_pulsePending false
         (usbMIDI_send_now (usbMIDI_sendRealTime usbMIDI_Clock s))).
Proof. intros Hp. unfold loop, seq_cmd, if_cmd. rewrite Hp. reflexivity. Qed.

Lemma loop_external (spp : bool) (s : State) :
  pulsePending s = false -> extClockPending s = true ->
  loop spp s = ClockPulseHandler spp (set_extClockPending false s).
Proof.
  intros Hp He. unfold loop, seq_cmd, if_cmd. rewrite Hp, He. reflexivity.
Qed.

Lemma loop_idle (spp : bool) (s : State) :
  pulsePending s = false -> extClockPending s = false ->
  loop spp s = usbMIDI_read spp s.
Proof.
  intros Hp He. unfold loop, seq_cmd, if_cmd. rewrite Hp, He. reflexivity.
Qed.

(** What one pass of [loop] sends, and the flag it leaves. *)
Lemma loop_tx (spp : bool) (s : State) :
  usbTx (loop spp s) = usbTx s ++ clock_frames (Nat.b2n (pulsePending s)) /\
  pulsePending (loop spp s) = false.
Proof.
  destruct (pulsePending s) eqn:Hp.
  - rewrite (loop_internal spp s Hp).
    destruct (ClockPulseHandler_frame spp
                (set_pulsePending false
                   (usbMIDI_send_now (usbMIDI_sendRealTime usbMIDI_Clock s))))
      as (_ & _ & Hpend & _ & Htx & _).
    rewrite Hpend, Htx. break_state s. cbn. rewrite <- app_assoc.
    split; reflexivity.
  - cbn [Nat.b2n clock_frames]. rewrite app_nil_r.
    destruct (extClockPending s) eqn:He.
    + rewrite (loop_external spp s Hp He).
      destruct (ClockPulseHandler_frame spp (set_extClockPending false s))
        as (_ & _ & Hpend & _ & Htx & _).
      rewrite Hpend, Htx. break_state s. cbn. split; [reflexivity | exact Hp].
    + rewrite (loop_idle spp s Hp He). unfold usbMIDI_read.
      destruct (usbRx s) as [|m rest]; [split; [reflexivity | exact Hp]|].
      destruct (dispatch_frame spp m (set_usbRx rest s)) as (Hpend & _ & Htx & _).
      rewrite Hpend, Htx. break_state s. cbn. split; [reflexivity | exact Hp].
Qed.

Lemma clock_frames_add (n k : nat) :
  clock_frames (n + k) = clock_frames n ++ clock_frames k.
Proof.
  induction n as [|n IH]; [reflexivity|].
  cbn [Nat.add clock_frames]. rewrite IH, app_assoc. reflexivity.
Qed.

Lemma run_cons (spp : bool) (ev : Event) (evs : list Event) (s : State) :
  run spp (ev :: evs) s = run spp evs (exec spp ev s).
Proof. reflexivity. Qed.

Lemma run_app (spp : bool) (evs1 evs2 : list Event) (s : State) :
  run spp (evs1 ++ evs2) s = run spp evs2 (run spp evs1 s).
Proof. unfold run. apply fold_left_app. Qed.

(** Any number of interrupts without a pass of [loop] in between leaves
    what one interrupt leaves. *)
Lemma run_ticks (spp : bool) (n : nat) (s : State) :
  running (midiClockTimer s) = true ->
  run spp (repeat Tick (S n)) s = TimerISR s.
Proof.
  revert s. induction n as [|n IH]; intros s Hr.
  - cbn [repeat]. rewrite run_cons. cbn [exec run fold_left].
    rewrite Hr. reflexivity.
  - change (repeat Tick (S (S n))) with (Tick :: repeat Tick (S n)).
    rewrite run_cons. cbn [exec]. rewrite Hr.
    rewrite IH by (break_state s; exact Hr).
    break_state s. reflexivity.
Qed.

(** X6: timer interrupts coalesce.  With the timer scheduled, any number
    n >= 1 of interrupts before the next pass of [loop] leaves the state
    one interrupt leaves, and that pass sends exactly one Clock (message
    and flush) and clears the flag: the flag is not a queue. *)
Theorem timer_ticks_coalesce :
  forall spp n s,
    running (midiClockTimer s) = true -> (1 <= n)%nat ->
    let s' := run spp (repeat Tick n ++ [Loop]) s in
    s' = loop spp (TimerISR s) /\
    usbTx s' = usbTx s ++ clock_frame /\
    pulsePending s' = false.
Proof.
  intros spp n s Hr Hn s'. subst s'.
  destruct n as [|n]; [lia|].
  rewrite run_app, (run_ticks spp n s Hr).
  change (run spp [Loop] (TimerISR s)) with (loop spp (TimerISR s)).
  split; [reflexivity|].
  destruct (loop_tx spp (TimerISR s)) as (Htx & Hp).
  rewrite Htx, Hp. break_state s. cbn. split; reflexivity.
Qed.

Lemma timer_ticks_coalesce_witness :
  running (midiClockTimer armed) = true /\
  usbTx (run SPP_SYNC (repeat Tick 3 ++ [Loop]) armed) = clock_frame /\
  pulsePending (run SPP_SYNC (repeat Tick 3 ++ [Loop]) armed) = false.
Proof.
  split; [reflexivity|].
  destruct (timer_ticks_coalesce SPP_SYNC 3 armed eq_refl ltac:(lia))
    as (_ & Htx & Hp).
  split; [exact Htx | exact Hp].
Defined.

(** X7: with an internal and an external pulse both pending, two passes
    of [loop] consume both, the internal one first: one Clock is sent,
    both flags end up clear, the counter has advanced by two and no
    message has been read from the transport. *)
Theorem both_pulses_consumed_in_two_passes :
  forall s,
    pulsePending s = true -> extClockPending s = true ->
    let s1 := loop SPP_SYNC s in
    let s2 := loop SPP_SYNC s1 in
    extClockPending s1 = true /\
    usbTx s1 = usbTx s ++ clock_frame /\
    usbTx s2 = usbTx s1 /\
    pulsePending s2 = false /\
    extClockPending s2 = false /\
    pulseCounter s2 = (pulseCounter s + 2) mod 24 /\
    usbRx s2 = usbRx s.
Proof.
  intros s Hp He s1 s2. subst s1 s2. unfold SPP_SYNC.
  rewrite (loop_internal false s Hp). rewrite ClockPulseHandler_eq.
  rewrite loop_external by (break_state s; cbn; congruence).
  rewrite ClockPulseHandler_eq.
  break_state s. cbn. rewrite <- app_assoc.
  repeat split; try reflexivity; try assumption.
  rewrite Zplus_mod_idemp_l. f_equal. lia.
Qed.

Lemma both_pulses_consumed_in_two_passes_witness :
  pulsePending (TimerISR (RealTimeSystemHandler usbMIDI_Clock armed)) = true /\
  extClockPending (TimerISR (RealTimeSystemHandler usbMIDI_Clock armed)) = true /\
  pulseCounter
    (loop SPP_SYNC
       (loop SPP_SYNC (TimerISR (RealTimeSystemHandler usbMIDI_Clock armed))))
  = 7.
Proof.
  split; [reflexivity|]. split; [reflexivity|].
  destruct (both_pulses_consumed_in_two_passes
              (TimerISR (RealTimeSystemHandler usbMIDI_Clock armed))
              eq_refl eq_refl) as (_ & _ & _ & _ & _ & Hc & _).
  exact Hc.
Defined.

(* ================================================================== *)
(** * Further properties: what goes out on the transport *)
(* ================================================================== *)

(** One event sends at most one Clock frame, and only by using up a
    pending internal pulse. *)
Lemma exec_tx (spp : bool) (ev : Event) (s : State) :
  exists k,
    usbTx (exec spp ev s) = usbTx s ++ clock_frames k /\
    (k + Nat.b2n (pulsePending (exec spp ev s))
     <= Nat.b2n (pulsePending s) + Nat.b2n (is_Tick ev))%nat.
Proof.
  destruct ev as [| |m]; cbn [exec is_Tick].
  - exists 0%nat. cbn [clock_frames]. rewrite app_nil_r.
    destruct (running (midiClockTimer s)).
    + break_state s. cbn. split; [reflexivity|]. destruct pend_; cbn; lia.
    + split; [reflexivity | lia].
  - exists (Nat.b2n (pulsePending s)).
    destruct (loop_tx spp s) as (Htx & Hp). rewrite Htx, Hp.
    split; [reflexivity | cbn; lia].
  - exists 0%nat. cbn [clock_frames]. rewrite app_nil_r.
    break_state s. cbn. split; [reflexivity | lia].
Qed.

Lemma ticks_cons (ev : Event) (evs : list Event) :
  ticks (ev :: evs) = (Nat.b2n (is_Tick ev) + ticks evs)%nat.
Proof. unfold ticks. cbn [filter]. destruct (is_Tick ev); reflexivity. Qed.

(** X8: all the sketch ever sends is real-time Clock, each followed by a
    flush, and never more of them than timer interrupts have occurred:
    over any run from any state the transmitted stream grows by n Clock
    frames, where n plus the pulse still pending at the end is at most
    the pulse pending at the start plus the interrupts of the run. *)
Theorem only_clock_frames_sent :
  forall spp evs s,
    exists n,
      usbTx (run spp evs s) = usbTx s ++ clock_frames n /\
      (n + Nat.b2n (pulsePending (run spp evs s))
       <= Nat.b2n (pulsePending s) + ticks evs)%nat.
Proof.
  intros spp evs. induction evs as [|ev evs IH]; intros s.
  - exists 0%nat. cbn [run fold_left clock_frames ticks filter length].
    rewrite app_nil_r. split; [reflexivity | lia].
  - rewrite run_cons, ticks_cons.
    destruct (exec_tx spp ev s) as (k & Hk & Hbk).
    destruct (IH (exec spp ev s)) as (n & Hn & Hbn).
    exists (k + n)%nat. split.
    + rewrite Hn, Hk, clock_frames_add, app_assoc. reflexivity.
    + lia.
Qed.

(** A message that passes no tempo guard leaves an idle timer idle. *)
Lemma dispatch_quiet (spp : bool) (m : Message) (s : State) :
  arming m = false ->
  running (midiClockTimer s) = false -> timerEn s = false ->
  running (midiClockTimer (dispatch spp m s)) = false /\
  timerEn (dispatch spp m s) = false.
Proof.
  intros Ha Hr He. break_state s. subst run_ en_.
  destruct m as [ch c v | ch v | b | beats |]; cbn [dispatch arming] in *.
  - unfold CC_Handler. rewrite Ha. split; reflexivity.
  - unfold PC_Handler. rewrite Ha. split; reflexivity.
  - unfold_cmds.
    repeat match goal with
      | |- context [if ?c then _ else _] => destruct c; cbn
      end; split; reflexivity.
  - destruct spp; unfold_cmds; cbn;
      repeat match goal with
        | |- context [if ?c then _ else _] => destruct c; cbn
        end; split; reflexivity.
  - split; reflexivity.
Qed.

Lemma exec_dormant (spp : bool) (ev : Event) (s : State) :
  quiet_event ev = true -> dormant s ->
  dormant (exec spp ev s) /\ usbTx (exec spp ev s) = usbTx s.
Proof.
  unfold dormant. intros Hq (Hr & He & Hp & Hrx).
  destruct ev as [| |m]; cbn [exec quiet_event] in *.
  - rewrite Hr. repeat split; assumption.
  - destruct (extClockPending s) eqn:Hx.
    + rewrite (loop_external spp s Hp Hx).
      destruct (ClockPulseHandler_frame spp (set_extClockPending false s))
        as (-> & -> & -> & _ & -> & ->).
      break_state s. cbn. repeat split; assumption.
    + rewrite (loop_idle spp s Hp Hx). unfold usbMIDI_read.
      destruct (usbRx s) as [|m rest] eqn:Hq'.
      * rewrite Hq'. repeat split; assumption.
      * cbn [forallb] in Hrx. apply andb_true_iff in Hrx.
        destruct Hrx as [Hm Hrest]. apply negb_true_iff in Hm.
        destruct (dispatch_frame spp m (set_usbRx rest s))
          as (-> & _ & -> & ->).
        destruct (dispatch_quiet spp m (set_usbRx rest s) Hm)
          as (-> & ->);
          try (break_state s; cbn; assumption).
        break_state s. cbn. repeat split; assumption.
  - break_state s. cbn. rewrite forallb_app, Hrx. cbn [forallb].
    rewrite Hq. repeat split; assumption.
Qed.

Lemma run_dormant (spp : bool) (evs : list Event) :
  forall s,
    forallb quiet_event evs = true -> dormant s ->
    dormant (run spp evs s) /\ usbTx (run spp evs s) = usbTx s.
Proof.
  induction evs as [|ev evs IH]; intros s Hq Hd.
  - split; [exact Hd | reflexivity].
  - cbn [forallb] in Hq. apply andb_true_iff in Hq. destruct Hq as [Hev Hq].
    rewrite run_cons.
    destruct (exec_dormant spp ev s Hev Hd) as (Hd' & Htx).
    destruct (IH (exec spp ev s) Hq Hd') as (Hd'' & Htx').
    split; [exact Hd'' | congruence].
Qed.

(** X9: a disarmed sketch stays silent.  Once Stop or Start has been
    handled in a coherent state with no internal pulse pending and no
    tempo message waiting, no run of interrupts, loop passes and
    deliveries of non-tempo messages (external Clock included) makes the
    sketch send anything or restart the timer. *)
Theorem disarmed_sketch_is_silent :
  forall spp evs b s,
    b = usbMIDI_Stop \/ b = usbMIDI_Start ->
    coherent s ->
    pulsePending s = false ->
    forallb (fun m => negb (arming m)) (usbRx s) = true ->
    forallb quiet_event evs = true ->
    let s' := run spp evs (RealTimeSystemHandler b s) in
    usbTx s' = usbTx s /\
    timerEn s' = false /\
    running (midiClockTimer s') = false.
Proof.
  intros spp evs b s Hb Hc Hp Hrx Hq s'. subst s'.
  assert (Hd : dormant (RealTimeSystemHandler b s) /\
               usbTx (RealTimeSystemHandler b s) = usbTx s).
  { unfold dormant, coherent in *.
    destruct Hb as [-> | ->];
      [rewrite RealTime_Stop_eq | rewrite RealTime_Start_eq];
      break_state s; subst run_ pend_; destruct en_; cbn;
      repeat split; try reflexivity; assumption. }
  destruct Hd as (Hd & Htx).
  destruct (run_dormant spp evs _ Hq Hd) as ((Hr & He & _) & Htx').
  split; [congruence|]. split; assumption.
Qed.

Lemma disarmed_sketch_is_silent_witness :
  coherent armed /\
  usbTx
    (run SPP_SYNC
       [Tick; Host (RealTime usbMIDI_Clock); Loop; Loop;
        Host (ControlChange 1 7 100); Loop; Tick; Loop]
       (RealTimeSystemHandler usbMIDI_Stop armed)) = [] /\
  timerEn
    (run SPP_SYNC
       [Tick; Host (RealTime usbMIDI_Clock); Loop; Loop;
        Host (ControlChange 1 7 100); Loop; Tick; Loop]
       (RealTimeSystemHandler usbMIDI_Stop armed)) = false.
Proof.
  assert (Ha : coherent armed) by reflexivity.
  split; [exact Ha|].
  destruct (disarmed_sketch_is_silent SPP_SYNC
              [Tick; Host (RealTime usbMIDI_Clock); Loop; Loop;
               Host (ControlChange 1 7 100); Loop; Tick; Loop]
              usbMIDI_Stop armed (or_introl eq_refl) Ha eq_refl eq_refl
              eq_refl) as (Htx & He & _).
  split; [exact Htx | exact He].
Defined.

(* ================================================================== *)
(** * Further properties: the period the timer is programmed with *)
(* ================================================================== *)

(** A handler keeps the flag and the timer coherent, and programs the
    timer only with the interval of the value it received. *)
Lemma dispatch_timer (spp : bool) (m : Message) (s : State) :
  byte_valued m = true ->
  coherent s -> period_in_range s ->
  coherent (dispatch spp m s) /\ period_in_range (dispatch spp m s).
Proof.
  unfold coherent, period_in_range. intros Hb Hc Hp.
  destruct m as [ch c v | ch v | b | beats |]; cbn [dispatch byte_valued] in *.
  - pose proof (clockIntervalUs_byte_bounds v ltac:(lia)) as Hv.
    unfold CC_Handler. destruct (c =? CC_Tempo); [|split; assumption].
    break_state s. subst run_. unfold_cmds.
    destruct en_; cbn; split; try reflexivity; intros _; exact Hv.
  - pose proof (clockIntervalUs_byte_bounds v ltac:(lia)) as Hv.
    unfold PC_Handler. destruct (ch =? PC_Tempo); [|split; assumption].
    break_state s. subst run_. unfold_cmds.
    destruct en_; cbn; split; try reflexivity; intros _; exact Hv.
  - break_state s. subst run_. unfold_cmds.
    repeat match goal with
      | |- context [if ?c then _ else _] => destruct c; cbn
      end;
      split; try reflexivity; try exact Hp; intros H; discriminate H.
  - break_state s. subst run_. destruct spp; unfold_cmds; cbn;
      repeat match goal with
        | |- context [if ?c then _ else _] => destruct c; cbn
        end;
      split; try reflexivity; exact Hp.
  - split; assumption.
Qed.

Lemma exec_timer (spp : bool) (ev : Event) (s : State) :
  byte_event ev = true ->
  coherent s /\ period_in_range s /\ forallb byte_valued (usbRx s) = true ->
  coherent (exec spp ev s) /\ period_in_range (exec spp ev s) /\
  forallb byte_valued (usbRx (exec spp ev s)) = true.
Proof.
  unfold coherent, period_in_range. intros Hb (Hc & Hp & Hrx).
  destruct ev as [| |m]; cbn [exec byte_event] in *.
  - destruct (running (midiClockTimer s)) eqn:Hr.
    + break_state s. subst run_. cbn. (split; [|split]); assumption.
    + rewrite Hr. split; [exact Hc|].
      split; [intros H; discriminate H | exact Hrx].
  - destruct (pulsePending s) eqn:Hpend.
    + rewrite (loop_internal spp s Hpend).
      destruct (ClockPulseHandler_frame spp
                  (set_pulsePending false
                     (usbMIDI_send_now
                        (usbMIDI_sendRealTime usbMIDI_Clock s))))
        as (-> & -> & _ & _ & _ & ->).
      break_state s. cbn. (split; [|split]); assumption.
    + destruct (extClockPending s) eqn:Hext.
      * rewrite (loop_external spp s Hpend Hext).
        destruct (ClockPulseHandler_frame spp (set_extClockPending false s))
          as (-> & -> & _ & _ & _ & ->).
        break_state s. cbn. (split; [|split]); assumption.
      * rewrite (loop_idle spp s Hpend Hext). unfold usbMIDI_read.
        destruct (usbRx s) as [|m rest] eqn:Hq.
        -- rewrite Hq. (split; [|split]); assumption.
        -- cbn [forallb] in Hrx. apply andb_true_iff in Hrx.
           destruct Hrx as [Hm Hrest].
           destruct (dispatch_frame spp m (set_usbRx rest s))
             as (_ & _ & _ & ->).
           destruct (dispatch_timer spp m (set_usbRx rest s) Hm)
             as (Hc' & Hp');
             try (unfold coherent, period_in_range;
                  break_state s; cbn; assumption).
           unfold coherent, period_in_range in *.
           split; [exact Hc'|]. split; [exact Hp'|].
           break_state s. cbn. exact Hrest.
  - break_state s. cbn. rewrite forallb_app, Hrx. cbn [forallb].
    rewrite Hb. split; [exact Hc|]. split; [exact Hp | reflexivity].
Qed.

(** X10: the timer is only ever scheduled with the interval of a tempo
    value.  Over any run that starts coherent with an in-range period and
    in which every tempo value fits the handlers' [byte] parameter, a
    scheduled timer always has a period between 8474 and 62500
    microseconds (never 0), and the flag stays coherent with the timer;
    this holds in particular from the initial state. *)
Theorem timer_period_stays_in_range :
  forall spp evs s,
    coherent s -> period_in_range s ->
    forallb byte_valued (usbRx s) = true ->
    forallb byte_event evs = true ->
    coherent (run spp evs s) /\
    period_in_range (run spp evs s) /\
    period_in_range (run spp evs initial).
Proof.
  intros spp evs.
  assert (H : forall s,
             forallb byte_event evs = true ->
             coherent s /\ period_in_range s /\
             forallb byte_valued (usbRx s) = true ->
             coherent (run spp evs s) /\ period_in_range (run spp evs s) /\
             forallb byte_valued (usbRx (run spp evs s)) = true).
  { induction evs as [|ev evs IH]; intros s Hb Hs; [exact Hs|].
    cbn [forallb] in Hb. apply andb_true_iff in Hb. destruct Hb as [Hev Hb].
    rewrite run_cons. apply IH; [exact Hb|].
    apply exec_timer; assumption. }
  intros s Hc Hp Hrx Hb.
  destruct (H s Hb (conj Hc (conj Hp Hrx))) as (Hc' & Hp' & _).
  split; [exact Hc'|]. split; [exact Hp'|].
  assert (Hi : coherent initial /\ period_in_range initial /\
               forallb byte_valued (usbRx initial) = true).
  { split; [reflexivity|]. split; [|reflexivity].
    unfold period_in_range. cbn. intros Hf. discriminate Hf. }
  destruct (H initial Hb Hi) as (_ & Hpi & _). exact Hpi.
Qed.

Lemma timer_period_stays_in_range_witness :
  coherent armed /\
  period_in_range armed /\
  running
    (midiClockTimer
       (run SPP_SYNC [Host (ProgramChange 15 255); Loop; Tick; Loop] armed))
  = true /\
  8474 <=
    period
      (midiClockTimer
         (run SPP_SYNC [Host (ProgramChange 15 255); Loop; Tick; Loop] armed))
  <= 62500.
Proof.
  assert (Ha : coherent armed) by reflexivity.
  assert (Hp : period_in_range armed).
  { unfold period_in_range. intros _. vm_compute. split; discriminate. }
  split; [exact Ha|]. split; [exact Hp|].
  assert (Hr : running
                 (midiClockTimer
                    (run SPP_SYNC
                       [Host (ProgramChange 15 255); Loop; Tick; Loop] armed))
               = true) by reflexivity.
  split; [exact Hr|].
  destruct (timer_period_stays_in_range SPP_SYNC
              [Host (ProgramChange 15 255); Loop; Tick; Loop] armed
              Ha Hp eq_refl eq_refl) as (_ & Hin & _).
  exact (Hin Hr).
Defined.

(* ================================================================== *)
(** * Further properties: the pulse step with song position compiled in *)
(* ================================================================== *)

(** One pulse step under [SPP_SYNC], as one state. *)
Lemma ClockPulseHandler_spp_eq (s : State) :
  ClockPulseHandler true s =
  mkState (midiClockTimer s) (pulsePending s) (extClockPending s)
    (if (pulseCounter s + 1) mod 24 mod 6 =? 0
     then (if to_uint16 (SPP s + 1) mod 16 =? 0
           then (pulseCounter s + 1) mod 24 else 0)
     else (pulseCounter s + 1) mod 24)
    (if (pulseCounter s + 1) mod 24 mod 6 =? 0
     then to_uint16 (SPP s + 1) else SPP s)
    (timerEn s)
    (if pulseCounter s =? 0 then HIGH
     else if pulseCounter s =? 12 then LOW else LED_BUILTIN s)
    (usbTx s) (usbRx s).
Proof.
  assert (Hsmall : to_uint8 ((pulseCounter s + 1) mod 24)
                   = (pulseCounter s + 1) mod 24).
  { unfold to_uint8. apply Z.mod_small.
    pose proof (Z.mod_pos_bound (pulseCounter s + 1) 24 ltac:(lia)). lia. }
  break_state s. unfold_cmds.
  unfold SPP_PULSES_PER_BEAT, SPP_BEATS_PER_QUARTER, SPP_BEATS_PER_MEASURE,
    MIDI_CLOCK_PPN, LED_BEAT_DIV_RATIO in *.
  change (24 / 2) with 12. change (24 / 4) with 6.
  cbn [midiClockTimer pulsePending extClockPending pulseCounter SPP timerEn
       LED_BUILTIN usbTx usbRx].
  destruct (cnt_ =? 0);
    cbn [midiClockTimer pulsePending extClockPending pulseCounter SPP timerEn
         LED_BUILTIN usbTx usbRx];
    [|destruct (cnt_ =? 12);
      cbn [midiClockTimer pulsePending extClockPending pulseCounter SPP
           timerEn LED_BUILTIN usbTx usbRx]];
    rewrite Hsmall;
    (destruct ((cnt_ + 1) mod 24 mod 6 =? 0);
     cbn [midiClockTimer pulsePending extClockPending pulseCounter SPP
          timerEn LED_BUILTIN usbTx usbRx];
     [rewrite to_uint16_idem;
      destruct (to_uint16 (spp_ + 1) mod 16 =? 0);
      cbn [negb midiClockTimer pulsePending extClockPending pulseCounter SPP
           timerEn LED_BUILTIN usbTx usbRx];
      rewrite ?Hsmall; reflexivity
     | reflexivity]).
Qed.

(** A pulse step inside a song-position beat: the counter advances, the
    position stays, and a lit LED stays lit. *)
Lemma ClockPulseHandler_spp_inside (s : State) (c : Z) :
  pulseCounter s = c ->
  (c + 1) mod 24 mod 6 <> 0 ->
  c <> 12 ->
  c = 0 \/ LED_BUILTIN s = true ->
  pulseCounter (ClockPulseHandler true s) = (c + 1) mod 24 /\
  SPP (ClockPulseHandler true s) = SPP s /\
  LED_BUILTIN (ClockPulseHandler true s) = true.
Proof.
  intros Hc Hin H12 Hled. rewrite ClockPulseHandler_spp_eq.
  cbn [pulseCounter SPP LED_BUILTIN]. rewrite Hc.
  destruct (Z.eqb_spec ((c + 1) mod 24 mod 6) 0); [contradiction|].
  split; [reflexivity|]. split; [reflexivity|].
  destruct (Z.eqb_spec c 0); [reflexivity|].
  destruct (Z.eqb_spec c 12); [contradiction|].
  destruct Hled as [Hled | Hled]; [contradiction | exact Hled].
Qed.

(** X11: the pulse step with [SPP_SYNC] compiled in.  When the advanced
    counter is a multiple of 6 the song position advances by one (modulo
    2^16) and the counter is reset to 0 unless the new position is a
    multiple of 16; otherwise counter and position are as without the
    option.  So from counter 0, six pulses bring the counter back to 0
    (not to 6) whenever the next position is not a multiple of 16: the
    counter then never reaches 12, the step that turns the LED off. *)
Theorem pulse_step_with_song_position :
  (forall s,
     let c := (pulseCounter s + 1) mod 24 in
     let s' := ClockPulseHandler true s in
     SPP s' = (if c mod 6 =? 0 then to_uint16 (SPP s + 1) else SPP s) /\
     pulseCounter s' =
       (if (c mod 6 =? 0) && negb (to_uint16 (SPP s + 1) mod 16 =? 0)
        then 0 else c) /\
     LED_BUILTIN s' =
       (if pulseCounter s =? 0 then true
        else if pulseCounter s =? 12 then false
        else LED_BUILTIN s)) /\
  (forall s,
     pulseCounter s = 0 ->
     to_uint16 (SPP s + 1) mod 16 <> 0 ->
     let s6 := Nat.iter 6 (ClockPulseHandler true) s in
     pulseCounter s6 = 0 /\
     SPP s6 = to_uint16 (SPP s + 1) /\
     LED_BUILTIN s6 = true).
Proof.
  split.
  - intros s c s'. subst c s'. rewrite ClockPulseHandler_spp_eq.
    cbn [SPP pulseCounter LED_BUILTIN].
    destruct ((pulseCounter s + 1) mod 24 mod 6 =? 0);
      [destruct (to_uint16 (SPP s + 1) mod 16 =? 0)|];
      repeat split; reflexivity.
  - intros s H0 Hspp s6. subst s6.
    rewrite (Nat.iter_succ 5).
    assert (H5 : pulseCounter (Nat.iter 5 (ClockPulseHandler true) s) = 5 /\
                 SPP (Nat.iter 5 (ClockPulseHandler true) s) = SPP s /\
                 LED_BUILTIN (Nat.iter 5 (ClockPulseHandler true) s) = true).
    { rewrite (Nat.iter_succ 4), (Nat.iter_succ 3), (Nat.iter_succ 2),
        (Nat.iter_succ 1), (Nat.iter_succ 0).
      change (Nat.iter 0 (ClockPulseHandler true) s) with s.
      destruct (ClockPulseHandler_spp_inside s 0 H0)
        as (C1 & S1 & L1);
        [discriminate | discriminate | left; reflexivity |].
      destruct (ClockPulseHandler_spp_inside _ 1 C1)
        as (C2 & S2 & L2);
        [discriminate | discriminate | right; exact L1 |].
      destruct (ClockPulseHandler_spp_inside _ 2 C2)
        as (C3 & S3 & L3);
        [discriminate | discriminate | right; exact L2 |].
      destruct (ClockPulseHandler_spp_inside _ 3 C3)
        as (C4 & S4 & L4);
        [discriminate | discriminate | right; exact L3 |].
      destruct (ClockPulseHandler_spp_inside _ 4 C4)
        as (C5 & S5 & L5);
        [discriminate | discriminate | right; exact L4 |].
      split; [exact C5|]. split; [congruence | exact L5]. }
    destruct H5 as (C5 & S5 & L5).
    rewrite ClockPulseHandler_spp_eq. cbn [pulseCounter SPP LED_BUILTIN].
    rewrite C5, S5, L5.
    destruct (Z.eqb_spec (to_uint16 (SPP s + 1) mod 16) 0); [contradiction|].
    repeat split; reflexivity.
Qed.

Lemma pulse_step_with_song_position_witness :
  pulseCounter initial = 0 /\
  to_uint16 (SPP initial + 1) mod 16 <> 0 /\
  pulseCounter (Nat.iter 6 (ClockPulseHandler true) initial) = 0 /\
  SPP (Nat.iter 6 (ClockPulseHandler true) initial) = 1.
Proof.
  assert (Hn : to_uint16 (SPP initial + 1) mod 16 <> 0)
    by (vm_compute; discriminate).
  split; [reflexivity|]. split; [exact Hn|].
  destruct pulse_step_with_song_position as (_ & H).
  destruct (H initial eq_refl Hn) as (Hc & Hs & _).
  split; [exact Hc | exact Hs].
Defined.

(* ================================================================== *)
(** * Further properties: the tempo handed to the mapper *)
(* ================================================================== *)

Lemma BPM_is_value_plus_40_all :
  forallb (fun v => float_is_Z (BPM_of_value v) (v + 40)) (Zrange 0 256) = true.
Proof. vm_compute. reflexivity. Qed.

(** X12: for every value of the handlers' [byte] parameter the tempo
    handed to [UpdateIntervalFromBPM] is exactly value + 40 beats per
    minute: converting the byte to [float] and adding the offset rounds
    nothing, so tempos 40..167 (and up to 295 for bytes above 127) are
    represented exactly. *)
Theorem BPM_is_value_plus_40 :
  forall v, 0 <= v <= 255 -> float_is_Z (BPM_of_value v) (v + 40) = true.
Proof.
  intros v Hv.
  apply (Zrange_forallb (fun v => float_is_Z (BPM_of_value v) (v + 40))
           0 256 BPM_is_value_plus_40_all v).
  lia.
Qed.

Lemma BPM_is_value_plus_40_witness :
  0 <= 127 <= 255 /\ float_is_Z (BPM_of_value 127) 167 = true.
Proof.
  split; [lia|]. apply (BPM_is_value_plus_40 127). lia.
Defined.
